(** * EasyRecipe chat front end: sessions, messages and the local cache

    A shallow embedding of the session and message logic of
    [frontend/src/App.jsx] (the [App] component and its handlers
    [createNewSession], [loadSession], [saveSessionName], [deleteSession],
    [sendMessage] and the mount effect [loadSessionsFromDatabase]) together
    with the parts of the JavaScript platform they rely on: [String.trim],
    [JSON.stringify], [JSON.parse], [localStorage], the clock and [axios].

    Conventions of the embedding.
    - A JavaScript string is a [string]; each [ascii] stands for one code
      unit in the range 0 to 255.
    - A JavaScript number is an integer [Z] (identifiers made by [Date.now]
      and counters are integers); fractional numbers are outside the model.
    - React state: a handler reads the state variables of the render in
      which it was created (its closure, an [AppState] called the render)
      and writes through the setters, which act on the live state held in
      the [World].
    - An [async] handler runs synchronously up to its first [await] and
      then hands back a continuation that waits for the network outcome.
    - Writes to the console have no effect on the state and are left out. *)

From Stdlib Require Import String Ascii List ZArith NArith Bool Lia.
From Stdlib Require Import Decimal DecimalString DecimalFacts DecimalPos DecimalN.
Import ListNotations.

#[local] Open Scope string_scope.
#[local] Open Scope list_scope.

(** ** Characters and strings *)

Definition dquote : ascii := "034"%char.
Definition backslash : ascii := "092"%char.

Definition str1 (c : ascii) : string := String c EmptyString.

(** White space and line terminators removed by [String.prototype.trim],
    restricted to code units below 256: TAB, LF, VT, FF, CR, SP, NBSP. *)
Definition is_trim_space (c : ascii) : bool :=
  let n := N_of_ascii c in
  ((9 <=? n) && (n <=? 13) || (n =? 32) || (n =? 160))%N.

Fixpoint trimStart (s : string) : string :=
  match s with
  | EmptyString => EmptyString
  | String c s' => if is_trim_space c then trimStart s' else s
  end.

Fixpoint trimEnd (s : string) : string :=
  match s with
  | EmptyString => EmptyString
  | String c s' =>
      match trimEnd s' with
      | EmptyString => if is_trim_space c then EmptyString else str1 c
      | t => String c t
      end
  end.

Definition trim (s : string) : string := trimEnd (trimStart s).

(** Truthiness of a string: only the empty string is falsy. *)
Definition truthy_string (s : string) : bool :=
  match s with EmptyString => false | _ => true end.

(** Decimal text of an integer, as a template literal or [JSON.stringify]
    prints an integer-valued number. *)
Definition string_of_N (n : N) : string := NilEmpty.string_of_uint (N.to_uint n).

Definition string_of_Z (z : Z) : string :=
  match z with
  | Zneg p => String "-" (string_of_N (Npos p))
  | _ => string_of_N (Z.to_N z)
  end.

(** ** JSON values *)

#[warnings="-register-all"]
Inductive json : Type :=
| JNull
| JBool (b : bool)
| JNum (n : Z)
| JStr (s : string)
| JArr (xs : list json)
| JObj (kvs : list (string * json)).

(** JavaScript truthiness of a JSON value: [null], [false], [0] and the
    empty string are falsy; arrays and objects are always truthy. *)
Definition truthy (v : json) : bool :=
  match v with
  | JNull => false
  | JBool b => b
  | JNum n => negb (n =? 0)%Z
  | JStr s => truthy_string s
  | JArr _ | JObj _ => true
  end.

(** [x || d] where [x] may be [undefined] (an absent property). *)
Definition or_default (x : option json) (d : json) : json :=
  match x with
  | Some v => if truthy v then v else d
  | None => d
  end.

(** *** JSON.stringify *)

Definition hex_digit (n : N) : ascii :=
  (if n <? 10 then ascii_of_N (48 + n) else ascii_of_N (87 + n))%N.

(** QuoteJSONString, one code unit at a time. *)
Definition quote_char (c : ascii) : string :=
  let n := N_of_ascii c in
  (if n =? 8 then String backslash "b"
   else if n =? 9 then String backslash "t"
   else if n =? 10 then String backslash "n"
   else if n =? 12 then String backslash "f"
   else if n =? 13 then String backslash "r"
   else if n =? 34 then String backslash (str1 dquote)
   else if n =? 92 then String backslash (str1 backslash)
   else if n <? 32 then
     String backslash
       (String "u" (String "0" (String "0"
          (String (hex_digit (n / 16)) (str1 (hex_digit (n mod 16)))))))
   else str1 c)%N.

Fixpoint quote_chars (s : string) : string :=
  match s with
  | EmptyString => EmptyString
  | String c s' => quote_char c ++ quote_chars s'
  end.

Definition quote (s : string) : string :=
  String dquote (quote_chars s ++ str1 dquote).

Fixpoint stringify (v : json) : string :=
  match v with
  | JNull => "null"
  | JBool true => "true"
  | JBool false => "false"
  | JNum n => string_of_Z n
  | JStr s => quote s
  | JArr xs =>
      let fix elements (xs : list json) : string :=
        match xs with
        | [] => EmptyString
        | [x] => stringify x
        | x :: xs' => (stringify x ++ String "," (elements xs'))%string
        end in
      String "[" (elements xs ++ "]")%string
  | JObj kvs =>
      let fix members (kvs : list (string * json)) : string :=
        match kvs with
        | [] => EmptyString
        | [(k, x)] => (quote k ++ String ":" (stringify x))%string
        | (k, x) :: kvs' =>
            (quote k ++ String ":" (stringify x) ++ String "," (members kvs'))%string
        end in
      String "{" (members kvs ++ "}")%string
  end.

(** *** JSON.parse *)

(** JSON white space: SP, TAB, LF, CR. *)
Definition is_json_space (c : ascii) : bool :=
  let n := N_of_ascii c in
  ((n =? 32) || (n =? 9) || (n =? 10) || (n =? 13))%N.

Fixpoint skip_ws (s : string) : string :=
  match s with
  | EmptyString => EmptyString
  | String c s' => if is_json_space c then skip_ws s' else s
  end.

Definition digit_of_char (c : ascii) : option (uint -> uint) :=
  match c with
  | "0" => Some D0 | "1" => Some D1 | "2" => Some D2 | "3" => Some D3
  | "4" => Some D4 | "5" => Some D5 | "6" => Some D6 | "7" => Some D7
  | "8" => Some D8 | "9" => Some D9
  | _ => None
  end%char.

(** The longest prefix of decimal digits and what follows it. *)
Fixpoint parse_digits (s : string) : uint * string :=
  match s with
  | EmptyString => (Nil, EmptyString)
  | String c s' =>
      match digit_of_char c with
      | Some d => let (ds, rest) := parse_digits s' in (d ds, rest)
      | None => (Nil, s)
      end
  end.

(** A fraction or an exponent would follow here; such numbers are not
    integers and are outside the model. *)
Definition starts_fraction (s : string) : bool :=
  match s with
  | String c _ => (Ascii.eqb c "." || Ascii.eqb c "e" || Ascii.eqb c "E")%char
  | EmptyString => false
  end.

(** The digits of a number after its sign: no leading zero, no fraction. *)
Definition parse_magnitude (neg : bool) (s : string) : option (json * string) :=
  let (ds, rest) := parse_digits s in
  match ds with
  | Nil => None
  | D0 (D0 _ | D1 _ | D2 _ | D3 _ | D4 _ | D5 _ | D6 _ | D7 _ | D8 _ | D9 _) =>
      None
  | _ =>
      if starts_fraction rest then None
      else
        let n := Z.of_N (N.of_uint ds) in
        Some (JNum (if neg then Z.opp n else n), rest)
  end.

Definition parse_number (s : string) : option (json * string) :=
  match s with
  | String c s' =>
      if Ascii.eqb c "-" then parse_magnitude true s'
      else parse_magnitude false s
  | EmptyString => None
  end.

Definition hex_value (c : ascii) : option N :=
  let n := N_of_ascii c in
  (if (48 <=? n) && (n <=? 57) then Some (n - 48)
   else if (97 <=? n) && (n <=? 102) then Some (n - 87)
   else if (65 <=? n) && (n <=? 70) then Some (n - 55)
   else None)%N.

(** The code unit written by four hexadecimal digits; [None] when they are
    not hexadecimal digits or the code unit is above 255. *)
Definition unicode_escape (h1 h2 h3 h4 : ascii) : option ascii :=
  match hex_value h1, hex_value h2, hex_value h3, hex_value h4 with
  | Some a, Some b, Some c, Some d =>
      let n := (((a * 16 + b) * 16 + c) * 16 + d)%N in
      if (n <? 256)%N then Some (ascii_of_N n) else None
  | _, _, _, _ => None
  end.

Definition simple_escape (e : ascii) : option ascii :=
  let n := N_of_ascii e in
  (if n =? 34 then Some dquote
   else if n =? 92 then Some backslash
   else if n =? 47 then Some "/"%char
   else if n =? 98 then Some (ascii_of_N 8)
   else if n =? 102 then Some (ascii_of_N 12)
   else if n =? 110 then Some (ascii_of_N 10)
   else if n =? 114 then Some (ascii_of_N 13)
   else if n =? 116 then Some (ascii_of_N 9)
   else None)%N.

Definition cons_char (c : ascii) (r : option (string * string)) :
  option (string * string) :=
  match r with
  | Some (t, rest) => Some (String c t, rest)
  | None => None
  end.

(** The characters of a string literal after its opening quote, up to and
    including the closing quote. *)
Fixpoint parse_chars (s : string) : option (string * string) :=
  match s with
  | EmptyString => None
  | String c s' =>
      if Ascii.eqb c dquote then Some (EmptyString, s')
      else if Ascii.eqb c backslash then
        match s' with
        | String e s2 =>
            if Ascii.eqb e "u" then
              match s2 with
              | String h1 (String h2 (String h3 (String h4 s6))) =>
                  match unicode_escape h1 h2 h3 h4 with
                  | Some u => cons_char u (parse_chars s6)
                  | None => None
                  end
              | _ => None
              end
            else
              match simple_escape e with
              | Some u => cons_char u (parse_chars s2)
              | None => None
              end
        | EmptyString => None
        end
      else if (N_of_ascii c <? 32)%N then None
      else cons_char c (parse_chars s')
  end.

(** Property definition by assignment: a repeated key overwrites the value
    and keeps the position of its first occurrence. *)
Fixpoint obj_set (k : string) (v : json) (kvs : list (string * json)) :
  list (string * json) :=
  match kvs with
  | [] => [(k, v)]
  | (k', v') :: kvs' =>
      if String.eqb k' k then (k, v) :: kvs' else (k', v') :: obj_set k v kvs'
  end.

Definition build_object (kvs : list (string * json)) : list (string * json) :=
  fold_left (fun acc kv => obj_set (fst kv) (snd kv) acc) kvs [].

Fixpoint strip_prefix (lit s : string) : option string :=
  match lit with
  | EmptyString => Some s
  | String c lit' =>
      match s with
      | String c' s' => if Ascii.eqb c c' then strip_prefix lit' s' else None
      | EmptyString => None
      end
  end.

(** The rest of a literal name ([true], [false], [null]). *)
Definition expect (lit : string) (v : json) (s : string) :
  option (json * string) :=
  match strip_prefix lit s with
  | Some rest => Some (v, rest)
  | None => None
  end.

Fixpoint parse_value (fuel : nat) (s : string) : option (json * string) :=
  match fuel with
  | O => None
  | S fuel' =>
      match skip_ws s with
      | EmptyString => None
      | String c rest =>
          if Ascii.eqb c "{" then
            match skip_ws rest with
            | String c' rest' =>
                if Ascii.eqb c' "}" then Some (JObj [], rest')
                else
                  match parse_members fuel' rest with
                  | Some (kvs, r) => Some (JObj (build_object kvs), r)
                  | None => None
                  end
            | EmptyString => None
            end
          else if Ascii.eqb c "[" then
            match skip_ws rest with
            | String c' rest' =>
                if Ascii.eqb c' "]" then Some (JArr [], rest')
                else
                  match parse_elements fuel' rest with
                  | Some (xs, r) => Some (JArr xs, r)
                  | None => None
                  end
            | EmptyString => None
            end
          else if Ascii.eqb c dquote then
            match parse_chars rest with
            | Some (t, r) => Some (JStr t, r)
            | None => None
            end
          else if Ascii.eqb c "t" then expect "rue" (JBool true) rest
          else if Ascii.eqb c "f" then expect "alse" (JBool false) rest
          else if Ascii.eqb c "n" then expect "ull" JNull rest
          else parse_number (String c rest)
      end
  end

with parse_elements (fuel : nat) (s : string) : option (list json * string) :=
  match fuel with
  | O => None
  | S fuel' =>
      match parse_value fuel' s with
      | Some (x, r) =>
          match skip_ws r with
          | String c r' =>
              if Ascii.eqb c "," then
                match parse_elements fuel' r' with
                | Some (xs, r2) => Some (x :: xs, r2)
                | None => None
                end
              else if Ascii.eqb c "]" then Some ([x], r')
              else None
          | EmptyString => None
          end
      | None => None
      end
  end

with parse_members (fuel : nat) (s : string) :
  option (list (string * json) * string) :=
  match fuel with
  | O => None
  | S fuel' =>
      match skip_ws s with
      | String q r0 =>
          if Ascii.eqb q dquote then
            match parse_chars r0 with
            | Some (k, r1) =>
                match skip_ws r1 with
                | String colon r2 =>
                    if Ascii.eqb colon ":" then
                      match parse_value fuel' r2 with
                      | Some (x, r3) =>
                          match skip_ws r3 with
                          | String c r4 =>
                              if Ascii.eqb c "," then
                                match parse_members fuel' r4 with
                                | Some (kvs, r5) => Some ((k, x) :: kvs, r5)
                                | None => None
                                end
                              else if Ascii.eqb c "}" then Some ([(k, x)], r4)
                              else None
                          | EmptyString => None
                          end
                      | None => None
                      end
                    else None
                | EmptyString => None
                end
            | None => None
            end
          else None
      | EmptyString => None
      end
  end.

(** [JSON.parse]: one value, then only white space. [None] stands for the
    [SyntaxError] (and for texts outside the model, see above). *)
Definition JSON_parse (s : string) : option json :=
  match parse_value (S (String.length s)) s with
  | Some (v, rest) =>
      match skip_ws rest with
      | EmptyString => Some v
      | _ => None
      end
  | None => None
  end.

Definition JSON_stringify (v : json) : string := stringify v.

(** ** Data model *)

Inductive Role : Type := user | ai.

(** A message identifier is a number ([Date.now()]) for messages made in
    the browser and a string (the row identifier with a suffix) for
    messages rebuilt from the remote history. *)
Inductive MsgId : Type :=
| IdNum (n : Z)
| IdStr (s : string).

Module Message.
Record t : Type := mk {
  id : MsgId;
  type : Role;
  content : json;
  timestamp : string
}.
End Message.

Module Session.
(** [messages] is [None] when the object has no such property, as for a
    session object delivered by the remote store. *)
Record t : Type := mk {
  id : string;
  name : string;
  createdAt : string;
  messages : option (list Message.t)
}.

(** The object spreads of the handlers. *)
Definition with_messages (s : t) (ms : list Message.t) : t :=
  mk (id s) (name s) (createdAt s) (Some ms).

Definition with_name (s : t) (n : string) : t :=
  mk (id s) n (createdAt s) (messages s).
End Session.

(** [session.messages || []] *)
Definition messages_or_empty (s : Session.t) : list Message.t :=
  match Session.messages s with
  | Some ms => ms
  | None => []
  end.

(** One row of [response.data.history]. *)
Module Chat.
Record t : Type := mk {
  id : string;
  ingredients : string;
  recipes : json;
  timestamp : string
}.
End Chat.

(** *** Sessions as JSON values *)

Definition role_to_string (r : Role) : string :=
  match r with user => "user" | ai => "ai" end.

Definition msgid_to_json (i : MsgId) : json :=
  match i with IdNum n => JNum n | IdStr s => JStr s end.

Definition message_to_json (m : Message.t) : json :=
  JObj [("id", msgid_to_json (Message.id m));
        ("type", JStr (role_to_string (Message.type m)));
        ("content", Message.content m);
        ("timestamp", JStr (Message.timestamp m))].

Definition session_to_json (s : Session.t) : json :=
  JObj ([("id", JStr (Session.id s));
         ("name", JStr (Session.name s));
         ("createdAt", JStr (Session.createdAt s))]
        ++ match Session.messages s with
           | Some ms => [("messages", JArr (map message_to_json ms))]
           | None => []
           end).

Definition sessions_to_json (l : list Session.t) : json :=
  JArr (map session_to_json l).

(** Property read [o.k]; [None] is [undefined]. *)
Fixpoint get (k : string) (kvs : list (string * json)) : option json :=
  match kvs with
  | [] => None
  | (k', v) :: kvs' => if String.eqb k' k then Some v else get k kvs'
  end.

Fixpoint traverse {A B : Type} (f : A -> option B) (l : list A) :
  option (list B) :=
  match l with
  | [] => Some []
  | x :: l' =>
      match f x, traverse f l' with
      | Some y, Some ys => Some (y :: ys)
      | _, _ => None
      end
  end.

Definition role_of_string (s : string) : option Role :=
  if String.eqb s "user" then Some user
  else if String.eqb s "ai" then Some ai
  else None.

Definition msgid_of_json (v : json) : option MsgId :=
  match v with
  | JNum n => Some (IdNum n)
  | JStr s => Some (IdStr s)
  | _ => None
  end.

(** Reading a parsed value back at the types of the data model: the
    properties that the component reads ([id], [type], [content],
    [timestamp]; [id], [name], [createdAt], [messages]). *)
Definition message_of_json (v : json) : option Message.t :=
  match v with
  | JObj kvs =>
      match get "id" kvs, get "type" kvs, get "content" kvs,
            get "timestamp" kvs with
      | Some i, Some (JStr t), Some c, Some (JStr ts) =>
          match msgid_of_json i, role_of_string t with
          | Some i', Some t' => Some (Message.mk i' t' c ts)
          | _, _ => None
          end
      | _, _, _, _ => None
      end
  | _ => None
  end.

Definition session_of_json (v : json) : option Session.t :=
  match v with
  | JObj kvs =>
      match get "id" kvs, get "name" kvs, get "createdAt" kvs with
      | Some (JStr i), Some (JStr n), Some (JStr c) =>
          match get "messages" kvs with
          | None => Some (Session.mk i n c None)
          | Some (JArr ms) =>
              match traverse message_of_json ms with
              | Some ms' => Some (Session.mk i n c (Some ms'))
              | None => None
              end
          | Some _ => None
          end
      | _, _, _ => None
      end
  | _ => None
  end.

Definition sessions_of_json (v : json) : option (list Session.t) :=
  match v with
  | JArr xs => traverse session_of_json xs
  | _ => None
  end.

(** ** The world: React state, local storage, network log, clock *)

Record AppState : Type := mkApp {
  sessions : list Session.t;
  currentSessionId : option string;
  messages : list Message.t;
  isLoading : bool;
  sidebarOpen : bool;
  error : option json;
  editingSessionId : option string;
  editingName : string
}.

(** The state of the first render, from the [useState] initialisers. *)
Definition initialState : AppState :=
  mkApp [] None [] false true None None EmptyString.

Inductive Request : Type :=
| GetSessions
| GetHistory (sessionId : string)
| PostSend (ingredients : string) (session_id : option string)
| PutTitle (sessionId : option string) (title : string)
| DeleteSession (sessionId : string).

(** [response.data] with the properties the handlers read; [None] is an
    absent property. *)
Module Response.
Record t : Type := mk {
  history : option (list Chat.t);
  sessions : option (list Session.t);
  recipes : option json
}.
Definition empty : t := mk None None None.
End Response.

(** What a rejected request (or any exception thrown in a [try] block)
    carries: [error.message] and [error.response?.data?.detail]. *)
Record Failure : Type := mkFailure {
  message : string;
  detail : option json
}.

Inductive Outcome : Type :=
| Resolved (data : Response.t)
| Rejected (e : Failure).

(** One reading of the clock: [Date.now()] and the text of
    [new Date().toISOString()] at that instant. *)
Record Instant : Type := mkInstant {
  epoch_ms : Z;
  iso : string
}.

Record World : Type := mkWorld {
  app : AppState;
  localStorage : list (string * string);
  requests : list Request;
  clock : nat -> Instant;
  ticks : nat;
  random : nat -> string;
  draws : nat
}.

(** ** Effects *)

Definition M (A : Type) : Type := World -> A * World.

Definition ret {A : Type} (a : A) : M A := fun w => (a, w).

Definition bind {A B : Type} (m : M A) (f : A -> M B) : M B :=
  fun w => let (a, w') := m w in f a w'.

Declare Scope eff_scope.
Delimit Scope eff_scope with eff.
Notation "x <- m ;; k" := (bind m (fun x => k))
  (at level 61, m at next level, right associativity) : eff_scope.
Notation "m ;; k" := (bind m (fun _ => k))
  (at level 61, right associativity) : eff_scope.
#[local] Open Scope eff_scope.

(** A pending [async] call: finished (having started the calls in
    [spawned] without awaiting them), or suspended at an [await]. *)
#[warnings="-register-all"]
Inductive Task : Type :=
| Done (spawned : list Task)
| Await (req : Request) (k : Outcome -> World -> Task * World).

Definition done : M Task := ret (Done []).

Definition modify_app (f : AppState -> AppState) : M unit :=
  fun w => (tt, mkWorld (f (app w)) (localStorage w) (requests w)
                        (clock w) (ticks w) (random w) (draws w)).

(** A state setter takes an updater; [to v] is the constant updater of
    [setX(v)]. *)
Definition to {A : Type} (v : A) : A -> A := fun _ => v.

Definition setSessions (f : list Session.t -> list Session.t) : M unit :=
  modify_app (fun a =>
    mkApp (f (sessions a)) (currentSessionId a) (messages a) (isLoading a)
          (sidebarOpen a) (error a) (editingSessionId a) (editingName a)).

Definition setCurrentSessionId (f : option string -> option string) : M unit :=
  modify_app (fun a =>
    mkApp (sessions a) (f (currentSessionId a)) (messages a) (isLoading a)
          (sidebarOpen a) (error a) (editingSessionId a) (editingName a)).

Definition setMessages (f : list Message.t -> list Message.t) : M unit :=
  modify_app (fun a =>
    mkApp (sessions a) (currentSessionId a) (f (messages a)) (isLoading a)
          (sidebarOpen a) (error a) (editingSessionId a) (editingName a)).

Definition setIsLoading (f : bool -> bool) : M unit :=
  modify_app (fun a =>
    mkApp (sessions a) (currentSessionId a) (messages a) (f (isLoading a))
          (sidebarOpen a) (error a) (editingSessionId a) (editingName a)).

Definition setError (f : option json -> option json) : M unit :=
  modify_app (fun a =>
    mkApp (sessions a) (currentSessionId a) (messages a) (isLoading a)
          (sidebarOpen a) (f (error a)) (editingSessionId a) (editingName a)).

Definition setEditingSessionId (f : option string -> option string) : M unit :=
  modify_app (fun a =>
    mkApp (sessions a) (currentSessionId a) (messages a) (isLoading a)
          (sidebarOpen a) (error a) (f (editingSessionId a)) (editingName a)).

Definition setEditingName (f : string -> string) : M unit :=
  modify_app (fun a =>
    mkApp (sessions a) (currentSessionId a) (messages a) (isLoading a)
          (sidebarOpen a) (error a) (editingSessionId a) (f (editingName a))).

Fixpoint storage_set (k v : string) (st : list (string * string)) :
  list (string * string) :=
  match st with
  | [] => [(k, v)]
  | (k', v') :: st' =>
      if String.eqb k' k then (k, v) :: st' else (k', v') :: storage_set k v st'
  end.

Fixpoint storage_get (k : string) (st : list (string * string)) :
  option string :=
  match st with
  | [] => None
  | (k', v) :: st' => if String.eqb k' k then Some v else storage_get k st'
  end.

Definition localStorage_setItem (k v : string) : M unit :=
  fun w => (tt, mkWorld (app w) (storage_set k v (localStorage w)) (requests w)
                        (clock w) (ticks w) (random w) (draws w)).

Definition localStorage_getItem (k : string) : M (option string) :=
  fun w => (storage_get k (localStorage w), w).

Definition read_clock : M Instant :=
  fun w => (clock w (ticks w),
            mkWorld (app w) (localStorage w) (requests w)
                    (clock w) (S (ticks w)) (random w) (draws w)).

Definition Date_now : M Z := t <- read_clock ;; ret (epoch_ms t).

Definition new_Date_toISOString : M string := t <- read_clock ;; ret (iso t).

(** [Math.random().toString(36).substr(2, 9)]: the environment supplies the
    text of each draw. *)
Definition Math_random_suffix : M string :=
  fun w => (random w (draws w),
            mkWorld (app w) (localStorage w) (requests w)
                    (clock w) (ticks w) (random w) (S (draws w))).

(** [await axios...]: the request goes out and the caller is suspended. *)
Definition await (req : Request) (k : Outcome -> M Task) : M Task :=
  fun w => (Await req k,
            mkWorld (app w) (localStorage w) (requests w ++ [req])
                    (clock w) (ticks w) (random w) (draws w)).

(** Calling an [async] function without awaiting it, as the last statement
    of the caller. *)
Definition spawn_last (callee : M Task) : M Task :=
  t <- callee ;; ret (Done [t]).

(** The network outcome arrives at a suspended task. *)
Definition resume (o : Outcome) (t : Task) : M Task :=
  match t with
  | Await _ k => k o
  | Done _ => ret t
  end.

(** An [async] call driven to the end by the outcomes of its successive
    requests, nothing else happening in between. *)
Fixpoint settle (outs : list Outcome) (t : Task) (w : World) : Task * World :=
  match outs with
  | [] => (t, w)
  | o :: outs' => let (t', w') := resume o t w in settle outs' t' w'
  end.

(** ** The handlers of [App] *)

Definition STORAGE_KEY : string := "easyrecipe_sessions".

Definition GENERIC_FAILURE : string :=
  "Failed to get recipe suggestions. Please try again.".

(** [localStorage.setItem('easyrecipe_sessions', JSON.stringify(l))] *)
Definition save_sessions (l : list Session.t) : M unit :=
  localStorage_setItem STORAGE_KEY (JSON_stringify (sessions_to_json l)).

(** [a === b] for a state variable that is [null] or a string. *)
Definition same_id (a : option string) (b : string) : bool :=
  match a with
  | Some x => String.eqb x b
  | None => false
  end.

(** A state variable that is [null] or a string, used as a condition. *)
Definition truthy_id (a : option string) : bool :=
  match a with
  | Some x => truthy_string x
  | None => false
  end.

Definition generateSessionId : M string :=
  now <- Date_now ;;
  rnd <- Math_random_suffix ;;
  ret ("session_" ++ string_of_Z now ++ "_" ++ rnd)%string.

Definition createNewSession (r : AppState) : M unit :=
  newSessionId <- generateSessionId ;;
  created <- new_Date_toISOString ;;
  let newSession :=
    Session.mk newSessionId
      ("Recipe Analysis " ++ string_of_N (N.of_nat (length (sessions r) + 1)))%string
      created
      (Some []) in
  setSessions (fun prev => newSession :: prev) ;;
  setCurrentSessionId (to (Some newSessionId)) ;;
  setMessages (to []) ;;
  setError (to None) ;;
  let updatedSessions := newSession :: sessions r in
  save_sessions updatedSessions.

(** The two messages pushed for one row of the remote history. *)
Definition messages_of_chat (chat : Chat.t) : list Message.t :=
  [ Message.mk (IdStr (Chat.id chat ++ "_user")%string) user
      (JStr (Chat.ingredients chat)) (Chat.timestamp chat);
    Message.mk (IdStr (Chat.id chat ++ "_ai")%string) ai
      (Chat.recipes chat) (Chat.timestamp chat) ].

Definition loadSession (r : AppState) (sessionId : string) : M Task :=
  match find (fun s => String.eqb (Session.id s) sessionId) (sessions r) with
  | Some session =>
      setCurrentSessionId (to (Some sessionId)) ;;
      setError (to None) ;;
      await (GetHistory sessionId) (fun out =>
        match out with
        | Resolved data =>
            match Response.history data with
            | Some ((_ :: _) as history) =>
                let backendMessages := flat_map messages_of_chat history in
                setMessages (to backendMessages) ;;
                let updatedSessions :=
                  map (fun s =>
                         if String.eqb (Session.id s) sessionId
                         then Session.with_messages s backendMessages
                         else s)
                      (sessions r) in
                setSessions (to updatedSessions) ;;
                save_sessions updatedSessions ;;
                done
            | _ =>
                setMessages (to (messages_or_empty session)) ;;
                done
            end
        | Rejected _ =>
            setMessages (to (messages_or_empty session)) ;;
            done
        end)
  | None => done
  end.

Definition startEditingSession (sessionId currentName : string) : M unit :=
  setEditingSessionId (to (Some sessionId)) ;;
  setEditingName (to currentName).

(** The local update of [saveSessionName], written out in the [try] block
    and again in the [catch] block. *)
Definition apply_rename (r : AppState) : M unit :=
  let updatedSessions :=
    map (fun session =>
           if same_id (editingSessionId r) (Session.id session)
           then Session.with_name session (trim (editingName r))
           else session)
        (sessions r) in
  setSessions (to updatedSessions) ;;
  save_sessions updatedSessions.

Definition saveSessionName (r : AppState) : M Task :=
  if truthy_string (trim (editingName r)) then
    await (PutTitle (editingSessionId r) (trim (editingName r))) (fun out =>
      match out with
      | Resolved _ => apply_rename r
      | Rejected _ => apply_rename r
      end ;;
      setEditingSessionId (to None) ;;
      setEditingName (to EmptyString) ;;
      done)
  else
    setEditingSessionId (to None) ;;
    setEditingName (to EmptyString) ;;
    done.

Definition cancelEditing : M unit :=
  setEditingSessionId (to None) ;;
  setEditingName (to EmptyString).

(** The block under the comment [Handle current session logic], written
    out in the [try] block and again in the [catch] block of
    [deleteSession]. [loadSession] is the one of the same render and is
    not awaited. *)
Definition handle_current_session (r : AppState) (sessionId : string)
  (updatedSessions : list Session.t) : M Task :=
  if same_id (currentSessionId r) sessionId then
    match updatedSessions with
    | head :: _ => spawn_last (loadSession r (Session.id head))
    | [] =>
        setCurrentSessionId (to None) ;;
        setMessages (to []) ;;
        done
    end
  else done.

(** The [catch] block of [deleteSession]. *)
Definition local_deletion (r : AppState) (sessionId : string) : M Task :=
  let updatedSessions :=
    filter (fun s => negb (String.eqb (Session.id s) sessionId)) (sessions r) in
  setSessions (to updatedSessions) ;;
  save_sessions updatedSessions ;;
  handle_current_session r sessionId updatedSessions.

Definition deleteSession (r : AppState) (sessionId : string) : M Task :=
  await (DeleteSession sessionId) (fun out =>
    match out with
    | Resolved _ =>
        await GetSessions (fun out' =>
          match out' with
          | Resolved data =>
              let updatedSessions :=
                match Response.sessions data with
                | Some l => l
                | None => []
                end in
              setSessions (to updatedSessions) ;;
              handle_current_session r sessionId updatedSessions
          | Rejected _ => local_deletion r sessionId
          end)
    | Rejected _ => local_deletion r sessionId
    end).

Definition sendMessage (r : AppState) (ingredients : string) : M Task :=
  if negb (truthy_string (trim ingredients)) then done
  else if negb (truthy_id (currentSessionId r)) then
    createNewSession r ;;
    done
  else
    now <- Date_now ;;
    stamp <- new_Date_toISOString ;;
    let userMessage := Message.mk (IdNum now) user (JStr ingredients) stamp in
    setMessages (fun prev => prev ++ [userMessage]) ;;
    setIsLoading (to true) ;;
    setError (to None) ;;
    await (PostSend ingredients (currentSessionId r)) (fun out =>
      match out with
      | Resolved data =>
          now' <- Date_now ;;
          stamp' <- new_Date_toISOString ;;
          let aiMessage :=
            Message.mk (IdNum (now' + 1)) ai
              (or_default (Response.recipes data) (JArr [])) stamp' in
          setMessages (fun prev => prev ++ [aiMessage]) ;;
          let updatedMessages := messages r ++ [userMessage; aiMessage] in
          let updatedSessions :=
            map (fun session =>
                   if same_id (currentSessionId r) (Session.id session)
                   then Session.with_messages session updatedMessages
                   else session)
                (sessions r) in
          setSessions (to updatedSessions) ;;
          save_sessions updatedSessions
      | Rejected e =>
          setError (to (Some (or_default (detail e) (JStr GENERIC_FAILURE))))
      end ;;
      setIsLoading (to false) ;;
      done).

(** The fallback of the mount effect: read the cache back. *)
Definition load_sessions : M (option (list Session.t)) :=
  savedSessions <- localStorage_getItem STORAGE_KEY ;;
  match savedSessions with
  | Some blob =>
      if truthy_string blob then
        match JSON_parse blob with
        | Some v => ret (sessions_of_json v)
        | None => ret None
        end
      else ret None
  | None => ret None
  end.

Definition loadSessionsFromDatabase (r : AppState) : M Task :=
  await GetSessions (fun out =>
    match out with
    | Resolved data =>
        match Response.sessions data with
        | Some ((head :: _) as l) =>
            setSessions (to l) ;;
            spawn_last (loadSession r (Session.id head))
        | _ =>
            setSessions (to []) ;;
            setCurrentSessionId (to None) ;;
            setMessages (to []) ;;
            done
        end
    | Rejected _ =>
        parsed <- load_sessions ;;
        match parsed with
        | Some parsedSessions =>
            setSessions (to parsedSessions) ;;
            match parsedSessions with
            | head :: _ => spawn_last (loadSession r (Session.id head))
            | [] => done
            end
        | None => done
        end
    end).

(** ** Notions used in the statements *)

(** The message sequence that the local cache holds for a session id:
    the blob is read back as the mount effect reads it, and the first
    entry with that id is looked up. *)
Definition cached_messages (sessionId : string) (w : World) :
  option (list Message.t) :=
  match fst (load_sessions w) with
  | Some l =>
      match find (fun s => String.eqb (Session.id s) sessionId) l with
      | Some s => Some (messages_or_empty s)
      | None => None
      end
  | None => None
  end.

Fixpoint distinct (l : list string) : bool :=
  match l with
  | [] => true
  | k :: l' => negb (existsb (String.eqb k) l') && distinct l'
  end.

(** A JSON value as a JavaScript object graph can hold it: no object has
    two properties of the same name. *)
Fixpoint json_wf (v : json) : bool :=
  match v with
  | JArr xs => forallb json_wf xs
  | JObj kvs =>
      distinct (map fst kvs) && forallb (fun kv => json_wf (snd kv)) kvs
  | _ => true
  end.

Definition message_wf (m : Message.t) : bool := json_wf (Message.content m).

Definition session_wf (s : Session.t) : bool :=
  forallb message_wf (messages_or_empty s).

(** Number of parser calls that a value needs. *)
Fixpoint size (v : json) : nat :=
  match v with
  | JArr xs => S (list_sum (map (fun x => S (size x)) xs))
  | JObj kvs => S (list_sum (map (fun kv => S (size (snd kv))) kvs))
  | _ => 1
  end.

(** What can follow a value inside a JSON text written by [stringify]. *)
Inductive delimited : string -> Prop :=
| delimited_end : delimited EmptyString
| delimited_comma r : delimited (String "," r)
| delimited_bracket r : delimited (String "]" r)
| delimited_brace r : delimited (String "}" r).

(** The array elements and object members as [stringify] writes them. *)
Fixpoint elements (xs : list json) : string :=
  match xs with
  | [] => EmptyString
  | [x] => stringify x
  | x :: xs' => (stringify x ++ String "," (elements xs'))%string
  end.

Fixpoint members (kvs : list (string * json)) : string :=
  match kvs with
  | [] => EmptyString
  | [(k, x)] => (quote k ++ String ":" (stringify x))%string
  | (k, x) :: kvs' =>
      (quote k ++ String ":" (stringify x) ++ String "," (members kvs'))%string
  end.


(** The first character of a printed integer: a sign or a digit. *)
Definition number_start (c : ascii) : Prop :=
  c = "-"%char \/ exists d, digit_of_char c = Some d.


(** The first character of a printed value is not white space and opens
    neither the end of an array nor the end of an object. *)
Definition value_start (c : ascii) : Prop :=
  is_json_space c = false /\ Ascii.eqb c "]" = false /\ Ascii.eqb c "}" = false.


Definition parses_back (v : json) : Prop :=
  json_wf v = true ->
  forall fuel rest,
    size v <= fuel -> delimited rest ->
    parse_value fuel (stringify v ++ rest) = Some (v, rest).


(** Induction on JSON values that reaches the values nested in arrays and
    objects. *)
Section json_induction.
Variable P : json -> Prop.
Hypothesis HNull : P JNull.
Hypothesis HBool : forall b, P (JBool b).
Hypothesis HNum : forall n, P (JNum n).
Hypothesis HStr : forall s, P (JStr s).
Hypothesis HArr : forall xs, Forall P xs -> P (JArr xs).
Hypothesis HObj : forall kvs, Forall (fun kv => P (snd kv)) kvs -> P (JObj kvs).

Fixpoint json_nested_ind (v : json) : P v :=
  match v with
  | JNull => HNull
  | JBool b => HBool b
  | JNum n => HNum n
  | JStr s => HStr s
  | JArr xs =>
      HArr xs
        ((fix all (l : list json) : Forall P l :=
            match l with
            | [] => Forall_nil P
            | x :: l' => Forall_cons x (json_nested_ind x) (all l')
            end) xs)
  | JObj kvs =>
      HObj kvs
        ((fix all (l : list (string * json)) :
            Forall (fun kv => P (snd kv)) l :=
            match l with
            | [] => Forall_nil _
            | kv :: l' => Forall_cons kv (json_nested_ind (snd kv)) (all l')
            end) kvs)
  end.
End json_induction.

(** An [async] call started in world [w] and driven to the end by the
    outcomes of its successive requests. *)
Definition run_with (outs : list Outcome) (m : M Task) : M Task :=
  fun w => let (t, w') := m w in settle outs t w'.

(** The user message that [sendMessage] builds when called in world [w]:
    the identifier is the first clock reading, the timestamp the second. *)
Definition user_message_at (w : World) (ingredients : string) : Message.t :=
  Message.mk (IdNum (epoch_ms (clock w (ticks w)))) user (JStr ingredients)
             (iso (clock w (S (ticks w)))).



(** The session list after the rename that [saveSessionName] applies. *)
Definition renamed_sessions (r : AppState) : list Session.t :=
  map (fun session =>
         if same_id (editingSessionId r) (Session.id session)
         then Session.with_name session (trim (editingName r))
         else session)
      (sessions r).

(** ** The components around [App]: the input box and the message list *)

(** [components/Chat/MessageInput.jsx]. The component keeps the text being
    typed; a prop that is not passed is [undefined] and counts as false in
    a condition. *)
Module MessageInput.
Record Props : Type := mk {
  onSendMessage : string -> M Task;
  isLoading : bool;
  disabled : bool
}.

(** The result is the call made to [onSendMessage], if any, and the text
    left in the box. *)
Definition handleSubmit (p : Props) (message : string) :
  M (option Task * string) :=
  if truthy_string (trim message) && negb (isLoading p) && negb (disabled p)
  then
    t <- onSendMessage p (trim message) ;;
    ret (Some t, EmptyString)
  else ret (None, message).

Definition handleKeyPress (p : Props) (key : string) (shiftKey : bool)
  (message : string) : M (option Task * string) :=
  if String.eqb key "Enter" && negb shiftKey then handleSubmit p message
  else ret (None, message).
End MessageInput.

(** The message list of [components/Chat/MessageList.jsx], reduced to what
    it decides to show: the welcome screen, or the conversation with an
    error banner, one bubble per message and a loading indicator. *)
Module MessageList.
Record Props : Type := mk {
  messages : list Message.t;
  loading : bool;
  error : option json
}.

Inductive Body : Type :=
| RecipeCards (recipes : list json)
| Text (s : string).

Record Bubble : Type := mkBubble {
  isUser : bool;
  body : Body
}.

Inductive View : Type :=
| Welcome
| Conversation (errorBanner : option json) (bubbles : list Bubble)
               (loadingIndicator : bool).

(** [error] used as a condition. *)
Definition shown_error (e : option json) : option json :=
  match e with
  | Some v => if truthy v then Some v else None
  | None => None
  end.

Definition is_user (m : Message.t) : bool :=
  match Message.type m with user => true | ai => false end.

Definition bubble (m : Message.t) : Bubble :=
  mkBubble (is_user m)
    (match is_user m, Message.content m with
     | false, JArr recipes => RecipeCards recipes
     | _, JStr s => Text s
     | _, v => Text (JSON_stringify v)
     end).

Definition render (p : Props) : View :=
  match messages p, loading p, shown_error (error p) with
  | [], false, None => Welcome
  | ms, l, e => Conversation e (map bubble ms) l
  end.
End MessageList.

(** The props that [App] gives the two components, directly when no
    session is active and through [Chat] when one is. [Chat] hands its
    [isLoading] to the message list under the name [isLoading], which the
    message list does not read: its [loading] is then [undefined]. *)
Definition input_props (r : AppState) : MessageInput.Props :=
  if truthy_id (currentSessionId r)
  then MessageInput.mk (sendMessage r) (isLoading r) false
  else MessageInput.mk (sendMessage r) false (isLoading r).

Definition message_list_props (r : AppState) : MessageList.Props :=
  if truthy_id (currentSessionId r)
  then MessageList.mk (messages r) false (error r)
  else MessageList.mk (messages r) (isLoading r) None.

(** The first of the calls that a finished call started without awaiting
    them, driven to the end by the outcomes of its requests. *)
Definition settle_spawned (outs : list Outcome) (p : Task * World) :
  Task * World :=
  match fst p with
  | Done (t :: _) => settle outs t (snd p)
  | _ => p
  end.

(** The session list in which the sessions with identifier [sessionId]
    carry the messages [ms]. *)
Definition with_messages_for (sessionId : string) (ms : list Message.t)
  (l : list Session.t) : list Session.t :=
  map (fun s => if String.eqb (Session.id s) sessionId
                then Session.with_messages s ms else s) l.

Fixpoint last_char (s : string) : option ascii :=
  match s with
  | EmptyString => None
  | String c s' =>
      match last_char s' with
      | None => Some c
      | Some c' => Some c'
      end
  end.

(** No underscore occurs in the string. *)
Fixpoint no_underscore (s : string) : bool :=
  match s with
  | EmptyString => true
  | String c s' => negb (Ascii.eqb c "_") && no_underscore s'
  end.

Definition shows_loading (v : MessageList.View) : bool :=
  match v with
  | MessageList.Conversation _ _ l => l
  | MessageList.Welcome => false
  end.

Definition shown_banner (v : MessageList.View) : option json :=
  match v with
  | MessageList.Conversation e _ _ => e
  | MessageList.Welcome => None
  end.

(** ** Sample data for the scenarios *)

Definition sample_clock (n : nat) : Instant :=
  mkInstant (1700000000000 + Z.of_nat n) "2023-11-14T22:13:20.000Z".

Definition sample_random (n : nat) : string := "k3j9x0q2a".

(** The page just loaded: first render, empty storage, nothing sent. *)
Definition fresh_world : World :=
  mkWorld initialState [] [] sample_clock 0 sample_random 0.

Definition pancakes : json :=
  JObj [("name", JStr "Pancakes");
        ("ingredients", JArr [JStr "eggs"; JStr "flour"; JStr "milk"]);
        ("instructions", JArr [JStr "Whisk"; JStr "Fry"]);
        ("cookingTime", JStr "20 minutes");
        ("difficulty", JStr "Easy");
        ("nutrition",
         JObj [("calories", JNum 350); ("protein", JNum 12); ("carbs", JNum 45)])].

Definition pancakes_response : Response.t :=
  Response.mk None None (Some (JArr [pancakes])).

Definition network_down : Failure := mkFailure "Network Error" None.

(** A session has been created from the fresh page. *)
Definition world_with_session : World :=
  snd (createNewSession (app fresh_world) fresh_world).

(** The identifier that [createNewSession] gives that session. *)
Definition sample_session_id : string := "session_1700000000000_k3j9x0q2a".

(** The scenario of the specification: create a session, send the
    ingredients, the generation endpoint answers with one recipe. *)
Definition world_after_pancakes : World :=
  snd (run_with [Resolved pancakes_response]
         (sendMessage (app world_with_session) "eggs, flour, milk")
         world_with_session).

(** The user edits the name of that session and types a new one. *)
Definition world_editing (typed : string) : World :=
  snd ((startEditingSession sample_session_id "Recipe Analysis 1" ;;
        setEditingName (to typed))%eff world_with_session).

(** A session known to the remote store only, as its list returns it. *)
Definition remote_only_session : Session.t :=
  Session.mk "session_1699999999999_zzzzzzzzz" "Recipe Analysis"
             "2023-11-14T22:13:19.999Z" None.

(** An earlier visit left one session with two messages in the cache. *)
Definition earlier_messages : list Message.t :=
  [ Message.mk (IdNum 1690000000000) user (JStr "eggs, flour, milk")
      "2023-07-22T04:26:40.000Z";
    Message.mk (IdNum 1690000000001) ai (JArr [pancakes])
      "2023-07-22T04:26:41.000Z" ].

Definition earlier_session : Session.t :=
  Session.mk "session_1690000000000_abcdefghi" "Recipe Analysis 1"
             "2023-07-22T04:26:40.000Z" (Some earlier_messages).

(** The same session as the remote store lists it: no [messages]. *)
Definition earlier_session_remote : Session.t :=
  Session.mk "session_1690000000000_abcdefghi" "Recipe Analysis 1"
             "2023-07-22T04:26:40.000Z" None.

(** The page is loaded again: fresh state, the cache of the earlier visit. *)
Definition world_returning : World :=
  snd (save_sessions [earlier_session] fresh_world).

(** The mount effect reaches the remote store, which lists the session. *)
Definition world_mounted : World :=
  snd (run_with [Resolved (Response.mk None (Some [earlier_session_remote]) None)]
         (loadSessionsFromDatabase initialState) world_returning).


(** The active session is deleted; the remote store confirms and its
    refreshed list holds a session that the local list never had. *)
Definition world_after_remote_delete : World :=
  snd (run_with [Resolved Response.empty;
                 Resolved (Response.mk None (Some [remote_only_session]) None)]
         (deleteSession (app world_with_session) sample_session_id)
         world_with_session).

(** A remote history of two rows. *)
Definition sample_history : list Chat.t :=
  [ Chat.mk "7f3a" "eggs, flour, milk" (JArr [pancakes])
      "2023-11-14T22:13:20.000Z";
    Chat.mk "9c1e" "rice" (JArr []) "2023-11-14T22:15:00.000Z" ].

Definition history_response : Response.t :=
  Response.mk (Some sample_history) None None.

(** Two sessions have been created, one render after the other; the
    second one is active. *)
Definition world_with_two_sessions : World :=
  snd (createNewSession (app world_with_session) world_with_session).

Definition second_session_id : string := "session_1700000000002_k3j9x0q2a".

(** * Proofs *)

(** ** The JSON functions on sample texts *)

Example stringify_sample :
  JSON_stringify
    (JObj [("id", JNum 17); ("tags", JArr [JStr "a"; JNull; JBool true]);
           ("n", JNum (-3))])
  = String "{" (quote "id" ++ ":17," ++ quote "tags" ++ ":["
                ++ quote "a" ++ ",null,true]," ++ quote "n" ++ ":-3}")%string.
Proof. reflexivity. Qed.

Example parse_sample :
  JSON_parse (" [ 1 , -20, {" ++ quote "k" ++ " : [] , " ++ quote "k"
              ++ ":true} ] ")%string
  = Some (JArr [JNum 1; JNum (-20); JObj [("k", JBool true)]]).
Proof. reflexivity. Qed.

Example parse_rejects_leading_zero : JSON_parse "[01]" = None.
Proof. reflexivity. Qed.

Example parse_escape :
  JSON_parse (String dquote (String backslash ("u0041" ++ str1 backslash
              ++ "n" ++ str1 dquote)%string))
  = Some (JStr (String "A" (str1 (ascii_of_N 10)))).
Proof. reflexivity. Qed.

(** ** Strings *)

Lemma append_assoc (a b c : string) : ((a ++ b) ++ c = a ++ (b ++ c))%string.
Proof. induction a as [|x a IH]; simpl; [reflexivity | now rewrite IH]. Qed.

Lemma append_empty_r (a : string) : (a ++ EmptyString)%string = a.
Proof. induction a as [|x a IH]; simpl; [reflexivity | now rewrite IH]. Qed.

Lemma length_append (a b : string) :
  String.length (a ++ b) = String.length a + String.length b.
Proof. induction a as [|x a IH]; simpl; [reflexivity | now rewrite IH]. Qed.

(** ** Numbers: printing then parsing *)

Lemma parse_digits_uint (d : uint) (rest : string) :
  match rest with
  | String c _ => digit_of_char c = None
  | EmptyString => True
  end ->
  parse_digits (NilEmpty.string_of_uint d ++ rest) = (d, rest).
Proof.
  intros H.
  induction d; simpl; try (rewrite IHd; reflexivity).
  destruct rest as [|c r]; simpl; [reflexivity | now rewrite H].
Qed.

Lemma delimited_no_digit (rest : string) :
  delimited rest ->
  match rest with
  | String c _ => digit_of_char c = None
  | EmptyString => True
  end.
Proof. intros []; simpl; trivial. Qed.

Lemma delimited_no_fraction (rest : string) :
  delimited rest -> starts_fraction rest = false.
Proof. intros []; reflexivity. Qed.

Lemma to_uint_no_leading_zero (p : positive) (d : uint) :
  Pos.to_uint p <> D0 d.
Proof.
  intros E.
  assert (U : unorm (Pos.to_uint p) = Pos.to_uint p).
  { rewrite <- DecimalPos.Unsigned.to_of, DecimalPos.Unsigned.of_to.
    reflexivity. }
  rewrite E, unorm_D0 in U.
  destruct d as [| d | d | d | d | d | d | d | d | d | d];
    [ exact (DecimalPos.Unsigned.to_uint_nonzero p E) | .. ];
    match type of U with
    | unorm ?x = _ =>
        assert (L : nb_digits (unorm x) <= nb_digits x)
          by (apply nb_digits_unorm; discriminate);
        rewrite U in L; simpl in L; lia
    end.
Qed.

Lemma parse_magnitude_pos (neg : bool) (p : positive) (rest : string) :
  delimited rest ->
  parse_magnitude neg (NilEmpty.string_of_uint (Pos.to_uint p) ++ rest)
  = Some (JNum (if neg then Zneg p else Zpos p), rest).
Proof.
  intros H. unfold parse_magnitude.
  rewrite parse_digits_uint by (apply delimited_no_digit; exact H).
  rewrite (delimited_no_fraction _ H).
  assert (V : N.of_uint (Pos.to_uint p) = Npos p)
    by exact (DecimalPos.Unsigned.of_to p).
  pose proof (to_uint_no_leading_zero p) as Z0.
  pose proof (DecimalPos.Unsigned.to_uint_nonnil p) as NN.
  destruct (Pos.to_uint p) as [| d | d | d | d | d | d | d | d | d | d];
    try (rewrite V; destruct neg; reflexivity).
  - contradiction.
  - exfalso. exact (Z0 d eq_refl).
Qed.

Lemma string_of_Z_pos (p : positive) :
  string_of_Z (Zpos p) = NilEmpty.string_of_uint (Pos.to_uint p).
Proof. reflexivity. Qed.

Lemma string_of_Z_neg (p : positive) :
  string_of_Z (Zneg p) = String "-" (NilEmpty.string_of_uint (Pos.to_uint p)).
Proof. reflexivity. Qed.

Lemma string_of_uint_head (p : positive) :
  exists c s,
    NilEmpty.string_of_uint (Pos.to_uint p) = String c s /\ number_start c.
Proof.
  pose proof (DecimalPos.Unsigned.to_uint_nonnil p) as NN.
  destruct (Pos.to_uint p); [contradiction | ..]; simpl;
    eexists; eexists; (split; [reflexivity | right; eexists; reflexivity]).
Qed.

Lemma string_of_Z_head (z : Z) :
  exists c s, string_of_Z z = String c s /\ number_start c.
Proof.
  destruct z as [|p|p].
  - exists "0"%char, EmptyString. split; [reflexivity|].
    right. eexists. reflexivity.
  - rewrite string_of_Z_pos. apply string_of_uint_head.
  - rewrite string_of_Z_neg. eexists; eexists. split; [reflexivity|].
    left. reflexivity.
Qed.

Lemma parse_number_string_of_Z (z : Z) (rest : string) :
  delimited rest ->
  parse_number (string_of_Z z ++ rest) = Some (JNum z, rest).
Proof.
  intros H. destruct z as [|p|p].
  - destruct H; reflexivity.
  - rewrite string_of_Z_pos.
    destruct (string_of_uint_head p) as (c & s & E & [->|[d D]]).
    + pose proof (parse_magnitude_pos false p rest H) as P.
      rewrite E in *. simpl.
      exfalso. revert E. clear.
      destruct (Pos.to_uint p); simpl; discriminate.
    + pose proof (parse_magnitude_pos false p rest H) as P.
      rewrite E in *. simpl.
      replace (Ascii.eqb c "-") with false; [exact P|].
      revert D. clear.
      destruct c as [[] [] [] [] [] [] [] []]; simpl; intros; try reflexivity;
        discriminate.
  - rewrite string_of_Z_neg. simpl.
    apply (parse_magnitude_pos true p rest H).
Qed.

(** ** String literals: quoting then parsing *)

Lemma parse_chars_quote_char (c : ascii) (tail : string) :
  parse_chars (quote_char c ++ tail) = cons_char c (parse_chars tail).
Proof. destruct c as [[] [] [] [] [] [] [] []]; reflexivity. Qed.

Lemma parse_chars_quote_chars (s rest : string) :
  parse_chars (quote_chars s ++ String dquote rest) = Some (s, rest).
Proof.
  induction s as [|c s IH]; simpl.
  - reflexivity.
  - rewrite append_assoc, parse_chars_quote_char, IH. reflexivity.
Qed.

Lemma parse_chars_quote (s rest : string) :
  parse_chars (quote_chars s ++ str1 dquote ++ rest) = Some (s, rest).
Proof. apply parse_chars_quote_chars. Qed.

(** ** Values: [JSON.stringify] then [JSON.parse] *)

Lemma stringify_arr (xs : list json) :
  stringify (JArr xs) = String "[" (elements xs ++ "]").
Proof. reflexivity. Qed.

Lemma stringify_obj (kvs : list (string * json)) :
  stringify (JObj kvs) = String "{" (members kvs ++ "}").
Proof. reflexivity. Qed.

Lemma number_start_facts (c : ascii) :
  number_start c ->
  value_start c /\ Ascii.eqb c "{" = false /\ Ascii.eqb c "[" = false
  /\ Ascii.eqb c dquote = false /\ Ascii.eqb c "t" = false
  /\ Ascii.eqb c "f" = false /\ Ascii.eqb c "n" = false.
Proof.
  unfold number_start, value_start.
  destruct c as [[] [] [] [] [] [] [] []]; simpl; intros [H|[d H]];
    try discriminate; repeat split; reflexivity.
Qed.

Lemma stringify_head (v : json) :
  exists c s, stringify v = String c s /\ value_start c.
Proof.
  destruct v as [|[]|n|s|xs|kvs].
  1,2,3: eexists; eexists; (split; [reflexivity | repeat split]).
  - destruct (string_of_Z_head n) as (c & s & E & Hc).
    exists c, s. split; [exact E|]. now apply number_start_facts.
  - eexists; eexists. split; [reflexivity | repeat split].
  - rewrite stringify_arr. eexists; eexists.
    split; [reflexivity | repeat split].
  - rewrite stringify_obj. eexists; eexists.
    split; [reflexivity | repeat split].
Qed.

Lemma parse_value_number (fuel : nat) (z : Z) (rest : string) :
  parse_value (S fuel) (string_of_Z z ++ rest)
  = parse_number (string_of_Z z ++ rest).
Proof.
  destruct (string_of_Z_head z) as (c & s & E & Hc).
  rewrite E.
  destruct (number_start_facts c Hc) as ((Hs & _ & _) & H1 & H2 & H3 & H4 & H5 & H6).
  simpl. rewrite Hs, H1, H2, H3, H4, H5, H6. reflexivity.
Qed.

Lemma parse_value_array (fuel : nat) (t : string) (c : ascii) (s : string) :
  t = String c s -> value_start c ->
  parse_value (S fuel) (String "[" t)
  = match parse_elements fuel t with
    | Some (xs, r) => Some (JArr xs, r)
    | None => None
    end.
Proof.
  intros -> (Hs & Hb & _). simpl. rewrite Hs, Hb. reflexivity.
Qed.

Lemma parse_elements_step (fuel : nat) (x : json) (t rest : string) :
  parse_value fuel t = Some (x, String "," rest) ->
  parse_elements (S fuel) t
  = match parse_elements fuel rest with
    | Some (xs, r) => Some (x :: xs, r)
    | None => None
    end.
Proof. intros H. simpl. rewrite H. reflexivity. Qed.

Lemma parse_elements_last (fuel : nat) (x : json) (t rest : string) :
  parse_value fuel t = Some (x, String "]" rest) ->
  parse_elements (S fuel) t = Some ([x], rest).
Proof. intros H. simpl. rewrite H. reflexivity. Qed.

Lemma parse_elements_elements (xs : list json) :
  xs <> [] ->
  Forall parses_back xs ->
  forallb json_wf xs = true ->
  forall fuel rest,
    list_sum (map (fun x => S (size x)) xs) <= fuel ->
    parse_elements fuel (elements xs ++ String "]" rest) = Some (xs, rest).
Proof.
  induction xs as [|x xs IH]; [congruence|].
  intros _ HF Hwf fuel rest Hfuel.
  inversion HF as [|? ? Hx HF']; subst.
  simpl in Hwf. apply andb_prop in Hwf as [Wx Wxs].
  simpl in Hfuel. destruct fuel as [|fuel]; [lia|].
  destruct xs as [|y xs].
  - apply parse_elements_last. apply Hx; [exact Wx | simpl in *; lia | constructor].
  - change (elements (x :: y :: xs))
      with (stringify x ++ String "," (elements (y :: xs)))%string.
    rewrite append_assoc.
    rewrite (parse_elements_step fuel x _ (elements (y :: xs) ++ String "]" rest)).
    + rewrite IH; [reflexivity | discriminate | exact HF' | exact Wxs | lia].
    + apply Hx; [exact Wx | lia | constructor].
Qed.

Lemma parse_value_object (fuel : nat) (k : string) (t : string) :
  parse_value (S fuel) (String "{" (quote k ++ t))
  = match parse_members fuel (quote k ++ t) with
    | Some (kvs, r) => Some (JObj (build_object kvs), r)
    | None => None
    end.
Proof. reflexivity. Qed.

Lemma parse_members_key (fuel : nat) (k : string) (t : string) :
  parse_members (S fuel) (quote k ++ String ":" t)
  = match parse_value fuel t with
    | Some (x, r3) =>
        match skip_ws r3 with
        | String c r4 =>
            if Ascii.eqb c "," then
              match parse_members fuel r4 with
              | Some (kvs, r5) => Some ((k, x) :: kvs, r5)
              | None => None
              end
            else if Ascii.eqb c "}" then Some ([(k, x)], r4)
            else None
        | EmptyString => None
        end
    | None => None
    end.
Proof.
  unfold quote. cbn [append parse_members skip_ws].
  change (is_json_space dquote) with false.
  change (Ascii.eqb dquote dquote) with true. cbv iota.
  rewrite append_assoc.
  change (str1 dquote ++ String ":" t)%string with (String dquote (String ":" t)).
  rewrite parse_chars_quote_chars.
  reflexivity.
Qed.

Lemma parse_members_members (kvs : list (string * json)) :
  kvs <> [] ->
  Forall (fun kv => parses_back (snd kv)) kvs ->
  forallb (fun kv => json_wf (snd kv)) kvs = true ->
  forall fuel rest,
    list_sum (map (fun kv => S (size (snd kv))) kvs) <= fuel ->
    parse_members fuel (members kvs ++ String "}" rest) = Some (kvs, rest).
Proof.
  induction kvs as [|[k x] kvs IH]; [congruence|].
  intros _ HF Hwf fuel rest Hfuel.
  inversion HF as [|? ? Hx HF']; subst. simpl in Hx.
  simpl in Hwf. apply andb_prop in Hwf as [Wx Wkvs].
  simpl in Hfuel. destruct fuel as [|fuel]; [lia|].
  destruct kvs as [|[k' y] kvs].
  - change (members [(k, x)]) with (quote k ++ String ":" (stringify x))%string.
    rewrite append_assoc.
    change (String ":" (stringify x) ++ String "}" rest)%string
      with (String ":" (stringify x ++ String "}" rest)).
    rewrite parse_members_key.
    rewrite Hx; [reflexivity | exact Wx | simpl in *; lia | constructor].
  - change (members ((k, x) :: (k', y) :: kvs))
      with (quote k ++ String ":" (stringify x)
            ++ String "," (members ((k', y) :: kvs)))%string.
    rewrite append_assoc.
    change ((String ":" (stringify x)
             ++ String "," (members ((k', y) :: kvs))) ++ String "}" rest)%string
      with (String ":" ((stringify x ++ String "," (members ((k', y) :: kvs)))
                        ++ String "}" rest)).
    rewrite append_assoc.
    rewrite parse_members_key.
    rewrite Hx; [| exact Wx | lia | constructor].
    cbn [skip_ws append]. change (is_json_space ",") with false.
    change (Ascii.eqb "," ",") with true. cbv iota.
    rewrite IH; [reflexivity | discriminate | exact HF' | exact Wkvs | lia].
Qed.

(** Defining distinct properties one after the other gives them back in
    the order written. *)
Lemma obj_set_fresh (k : string) (v : json) (acc : list (string * json)) :
  existsb (String.eqb k) (map fst acc) = false ->
  obj_set k v acc = acc ++ [(k, v)].
Proof.
  induction acc as [|[k' v'] acc IH]; simpl; [reflexivity|].
  intros H. apply orb_false_elim in H as [H1 H2].
  rewrite String.eqb_sym, H1. now rewrite IH.
Qed.

Lemma existsb_app_keys (k : string) (a b : list string) :
  existsb (String.eqb k) (a ++ b)
  = existsb (String.eqb k) a || existsb (String.eqb k) b.
Proof. apply existsb_app. Qed.

Lemma build_object_from (kvs acc : list (string * json)) :
  distinct (map fst kvs) = true ->
  (forall k, existsb (String.eqb k) (map fst kvs) = true ->
             existsb (String.eqb k) (map fst acc) = false) ->
  fold_left (fun a kv => obj_set (fst kv) (snd kv) a) kvs acc = acc ++ kvs.
Proof.
  revert acc. induction kvs as [|[k v] kvs IH]; intros acc D F; simpl.
  - now rewrite List.app_nil_r.
  - simpl in D. apply andb_prop in D as [D1 D2].
    apply negb_true_iff in D1.
    rewrite obj_set_fresh.
    + rewrite IH; [now rewrite <- List.app_assoc | exact D2 |].
      intros k0 Hk0. rewrite map_app, existsb_app_keys.
      rewrite F by (simpl; rewrite Hk0; apply orb_true_r).
      simpl. rewrite orb_false_r.
      destruct (String.eqb_spec k0 k) as [->|]; [|reflexivity].
      congruence.
    + apply F. simpl. now rewrite String.eqb_refl.
Qed.

Lemma build_object_distinct (kvs : list (string * json)) :
  distinct (map fst kvs) = true -> build_object kvs = kvs.
Proof.
  intros D. unfold build_object. now rewrite build_object_from.
Qed.

Lemma parse_value_stringify (v : json) : parses_back v.
Proof.
  induction v as [| b | n | s | xs IH | kvs IH] using json_nested_ind;
    intros Hwf fuel rest Hfuel Hrest;
    (destruct fuel as [|fuel]; [simpl in Hfuel; lia|]).
  - reflexivity.
  - destruct b; reflexivity.
  - change (stringify (JNum n)) with (string_of_Z n).
    rewrite parse_value_number. now apply parse_number_string_of_Z.
  - change (stringify (JStr s)) with (String dquote (quote_chars s ++ str1 dquote)).
    cbn [append parse_value skip_ws].
    change (is_json_space dquote) with false. cbv iota.
    change (Ascii.eqb dquote "{") with false.
    change (Ascii.eqb dquote "[") with false.
    change (Ascii.eqb dquote dquote) with true. cbv iota.
    rewrite append_assoc, parse_chars_quote. reflexivity.
  - rewrite stringify_arr.
    destruct xs as [|x xs]; [reflexivity|].
    change (String "[" (elements (x :: xs) ++ "]") ++ rest)%string
      with (String "[" ((elements (x :: xs) ++ "]") ++ rest)).
    rewrite append_assoc.
    change ("]" ++ rest)%string with (String "]" rest).
    destruct (stringify_head x) as (c & s & E & Hc).
    assert (exists s', (elements (x :: xs) ++ String "]" rest)%string = String c s')
      as [s' E'].
    { destruct xs; cbn [elements]; rewrite ?append_assoc, E; eexists; reflexivity. }
    rewrite (parse_value_array fuel _ c s' E' Hc).
    rewrite parse_elements_elements;
      [reflexivity | discriminate | exact IH | exact Hwf |].
    simpl in Hfuel. simpl. lia.
  - rewrite stringify_obj.
    destruct kvs as [|[k x] kvs]; [reflexivity|].
    simpl in Hwf. apply andb_prop in Hwf as [D W].
    change (String "{" (members ((k, x) :: kvs) ++ "}") ++ rest)%string
      with (String "{" ((members ((k, x) :: kvs) ++ "}") ++ rest)).
    rewrite append_assoc.
    change ("}" ++ rest)%string with (String "}" rest).
    assert (exists t, (members ((k, x) :: kvs) ++ String "}" rest)%string
                      = (quote k ++ t)%string) as [t E].
    { destruct kvs as [|[k' y] kvs]; cbn [members]; rewrite append_assoc;
        eexists; reflexivity. }
    rewrite E, parse_value_object, <- E.
    rewrite parse_members_members;
      [| discriminate | exact IH | exact W | simpl in Hfuel; simpl; lia].
    rewrite build_object_distinct; [reflexivity | exact D].
Qed.

(** The parser is given one unit of fuel per character, which is enough. *)
Lemma size_le_length (v : json) : size v <= String.length (stringify v).
Proof.
  induction v as [| b | n | s | xs IH | kvs IH] using json_nested_ind.
  - simpl. lia.
  - destruct b; simpl; lia.
  - change (stringify (JNum n)) with (string_of_Z n).
    destruct (string_of_Z_head n) as (c & s & E & _). rewrite E. simpl. lia.
  - simpl. lia.
  - rewrite stringify_arr. cbn [size String.length].
    rewrite length_append. cbn [String.length].
    assert (list_sum (map (fun x => S (size x)) xs)
            <= String.length (elements xs) + 1); [|lia].
    induction xs as [|x xs IHxs]; [simpl; lia|].
    inversion IH as [|? ? Hx IH']; subst.
    specialize (IHxs IH').
    destruct xs as [|y xs].
    + simpl in *. lia.
    + change (elements (x :: y :: xs))
        with (stringify x ++ String "," (elements (y :: xs)))%string.
      rewrite length_append. cbn [String.length].
      cbn [map list_sum fold_right] in *. lia.
  - rewrite stringify_obj. cbn [size String.length].
    rewrite length_append. cbn [String.length].
    assert (list_sum (map (fun kv => S (size (snd kv))) kvs)
            <= String.length (members kvs) + 1); [|lia].
    induction kvs as [|[k x] kvs IHkvs]; [simpl; lia|].
    inversion IH as [|? ? Hx IH']; subst. simpl in Hx.
    specialize (IHkvs IH').
    destruct kvs as [|[k' y] kvs].
    + change (members [(k, x)]) with (quote k ++ String ":" (stringify x))%string.
      rewrite length_append. cbn [String.length map list_sum fold_right snd]. lia.
    + change (members ((k, x) :: (k', y) :: kvs))
        with (quote k ++ String ":" (stringify x)
              ++ String "," (members ((k', y) :: kvs)))%string.
      rewrite length_append. cbn [String.length append].
      rewrite length_append. cbn [String.length].
      cbn [map list_sum fold_right snd] in *. lia.
Qed.

Lemma JSON_parse_stringify (v : json) :
  json_wf v = true -> JSON_parse (JSON_stringify v) = Some v.
Proof.
  intros Hwf. unfold JSON_parse, JSON_stringify.
  pose proof (parse_value_stringify v Hwf (S (String.length (stringify v)))
                EmptyString) as H.
  rewrite append_empty_r in H.
  rewrite H; [reflexivity | | constructor].
  pose proof (size_le_length v). lia.
Qed.

(** ** Sessions: writing as JSON values then reading back *)

Lemma traverse_map {A B : Type} (f : A -> B) (g : B -> option A) (l : list A) :
  (forall x, g (f x) = Some x) -> traverse g (map f l) = Some l.
Proof.
  intros H. induction l as [|x l IH]; simpl; [reflexivity|].
  now rewrite H, IH.
Qed.

Lemma message_of_to_json (m : Message.t) :
  message_of_json (message_to_json m) = Some m.
Proof. destruct m as [[n|s] [] c ts]; reflexivity. Qed.

Lemma session_of_to_json (s : Session.t) :
  session_of_json (session_to_json s) = Some s.
Proof.
  destruct s as [i n c [ms|]]; [|reflexivity].
  unfold session_to_json, session_of_json. cbn.
  now rewrite (traverse_map _ _ ms message_of_to_json).
Qed.

Lemma sessions_of_to_json (l : list Session.t) :
  sessions_of_json (sessions_to_json l) = Some l.
Proof. apply traverse_map, session_of_to_json. Qed.

Lemma message_to_json_wf (m : Message.t) :
  message_wf m = true -> json_wf (message_to_json m) = true.
Proof.
  destruct m as [[n|s] t c ts]; unfold message_wf; cbn; intros ->; reflexivity.
Qed.

Lemma forallb_map_wf {A : Type} (f : A -> json) (p : A -> bool) (l : list A) :
  (forall x, p x = true -> json_wf (f x) = true) ->
  forallb p l = true -> forallb json_wf (map f l) = true.
Proof.
  intros H. induction l as [|x l IH]; simpl; [reflexivity|].
  intros E. apply andb_prop in E as [E1 E2].
  now rewrite (H x E1), (IH E2).
Qed.

Lemma session_to_json_wf (s : Session.t) :
  session_wf s = true -> json_wf (session_to_json s) = true.
Proof.
  destruct s as [i n c [ms|]]; unfold session_wf, messages_or_empty; cbn;
    intros H; [|reflexivity].
  rewrite (forallb_map_wf message_to_json message_wf ms message_to_json_wf H).
  reflexivity.
Qed.

Lemma sessions_to_json_wf (l : list Session.t) :
  forallb session_wf l = true -> json_wf (sessions_to_json l) = true.
Proof. apply (forallb_map_wf session_to_json session_wf l session_to_json_wf). Qed.

Lemma storage_get_set (k v : string) (st : list (string * string)) :
  storage_get k (storage_set k v st) = Some v.
Proof.
  induction st as [|[k' v'] st IH]; simpl.
  - now rewrite String.eqb_refl.
  - destruct (String.eqb k' k) eqn:E; simpl; [now rewrite String.eqb_refl|].
    now rewrite E.
Qed.

Lemma load_after_save (l : list Session.t) (w : World) :
  forallb session_wf l = true ->
  fst (load_sessions (snd (save_sessions l w))) = Some l.
Proof.
  intros Hwf.
  unfold load_sessions, save_sessions, localStorage_setItem,
    localStorage_getItem, bind. cbn [snd fst localStorage].
  rewrite storage_get_set.
  rewrite JSON_parse_stringify by (apply sessions_to_json_wf, Hwf).
  unfold JSON_stringify, sessions_to_json. rewrite stringify_arr.
  cbn [truthy_string ret fst]. apply sessions_of_to_json.
Qed.

(** * The message exchange: [sendMessage] *)

Lemma or_default_truthy (x : option json) (d : json) :
  truthy d = true -> truthy (or_default x d) = true.
Proof.
  intros H. destruct x as [v|]; simpl; [|exact H].
  destruct (truthy v) eqn:E; [exact E | exact H].
Qed.

Lemma cached_messages_storage (sessionId : string) (w w' : World) :
  localStorage w' = localStorage w ->
  cached_messages sessionId w' = cached_messages sessionId w.
Proof.
  intros E. unfold cached_messages, load_sessions, localStorage_getItem, bind.
  rewrite E.
  destruct (storage_get STORAGE_KEY (localStorage w)) as [blob|]; [|reflexivity].
  destruct (truthy_string blob); [|reflexivity].
  destruct (JSON_parse blob); reflexivity.
Qed.

(** Both guards of [sendMessage] passed: what is left is the send itself. *)
Ltac pass_guards H1 H2 :=
  unfold run_with, sendMessage; rewrite H1, H2.

(** C7. [sendMessage] with ingredients that are empty after trimming does
    nothing at all: the call is finished, and the world (state, local
    storage, log of requests) is the one it started in. With ingredients
    that are not blank but no active session, it calls [createNewSession]
    and finishes: the world is the one [createNewSession] leaves, and no
    request has gone out. *)
Theorem sendMessage_guards (r : AppState) (ingredients : string) (w : World) :
  (truthy_string (trim ingredients) = false ->
   sendMessage r ingredients w = (Done [], w))
  /\
  (truthy_string (trim ingredients) = true ->
   truthy_id (currentSessionId r) = false ->
   sendMessage r ingredients w = (Done [], snd (createNewSession r w))
   /\ requests (snd (createNewSession r w)) = requests w).
Proof.
  split.
  - intros H. unfold sendMessage. rewrite H. reflexivity.
  - intros H1 H2. unfold sendMessage. rewrite H1, H2. split; reflexivity.
Qed.

Lemma sendMessage_guards_witness :
  sendMessage initialState "  " fresh_world = (Done [], fresh_world)
  /\ sendMessage initialState "eggs" fresh_world
     = (Done [], snd (createNewSession initialState fresh_world))
  /\ requests (snd (createNewSession initialState fresh_world)) = [].
Proof.
  split.
  - apply (proj1 (sendMessage_guards initialState "  " fresh_world)).
    reflexivity.
  - apply (proj2 (sendMessage_guards initialState "eggs" fresh_world));
      reflexivity.
Defined.

(** C1. With ingredients that are not blank and a session active,
    [sendMessage] reaches its request with exactly one message appended to
    the live message sequence: a user message that carries the ingredient
    text, the clock reading as identifier and the current timestamp. The
    loading flag is set and the error is cleared. The call is then
    suspended on the generation request, so no response has arrived. *)
Theorem sendMessage_appends_user_message
  (r : AppState) (ingredients : string) (w : World) :
  truthy_string (trim ingredients) = true ->
  truthy_id (currentSessionId r) = true ->
  let t := fst (sendMessage r ingredients w) in
  let w' := snd (sendMessage r ingredients w) in
  (exists k, t = Await (PostSend ingredients (currentSessionId r)) k)
  /\ messages (app w') = messages (app w) ++ [user_message_at w ingredients]
  /\ Message.type (user_message_at w ingredients) = user
  /\ Message.content (user_message_at w ingredients) = JStr ingredients
  /\ Message.id (user_message_at w ingredients)
     = IdNum (epoch_ms (clock w (ticks w)))
  /\ Message.timestamp (user_message_at w ingredients)
     = iso (clock w (S (ticks w)))
  /\ isLoading (app w') = true
  /\ error (app w') = None
  /\ requests w' = requests w ++ [PostSend ingredients (currentSessionId r)].
Proof.
  intros H1 H2. pass_guards H1 H2. cbn.
  repeat split. eexists. reflexivity.
Qed.

Lemma sendMessage_appends_user_message_witness :
  messages (app (snd (sendMessage (app world_with_session) "eggs, flour, milk"
                        world_with_session)))
  = [user_message_at world_with_session "eggs, flour, milk"]
  /\ isLoading (app (snd (sendMessage (app world_with_session)
                            "eggs, flour, milk" world_with_session))) = true.
Proof.
  destruct (sendMessage_appends_user_message (app world_with_session)
              "eggs, flour, milk" world_with_session eq_refl eq_refl)
    as (_ & Hm & _ & _ & _ & _ & Hl & _).
  split; [exact Hm | exact Hl].
Defined.

(** C2. When the generation request fails, the continuation of
    [sendMessage] appends no message (the message sequence is the one found
    when the failure arrives), and sets the error to the failure detail
    when there is a truthy one and to the generic message otherwise; the
    error set is truthy, which is what the view tests before showing it.
    Whatever the outcome, success or failure, the call finishes with the
    loading flag false. A thrown exception reaches the same [catch] and
    [finally] blocks as a rejected request. *)
Theorem sendMessage_failure_and_cleanup
  (r : AppState) (ingredients : string) (w : World) :
  truthy_string (trim ingredients) = true ->
  truthy_id (currentSessionId r) = true ->
  let t := fst (sendMessage r ingredients w) in
  (forall (e : Failure) (w2 : World),
     let w3 := snd (resume (Rejected e) t w2) in
     messages (app w3) = messages (app w2)
     /\ error (app w3) = Some (or_default (detail e) (JStr GENERIC_FAILURE))
     /\ (forall v, detail e = Some v -> truthy v = true -> error (app w3) = Some v)
     /\ (detail e = None -> error (app w3) = Some (JStr GENERIC_FAILURE))
     /\ truthy (or_default (detail e) (JStr GENERIC_FAILURE)) = true)
  /\
  (forall (o : Outcome) (w2 : World),
     fst (resume o t w2) = Done []
     /\ isLoading (app (snd (resume o t w2))) = false).
Proof.
  intros H1 H2. pass_guards H1 H2. cbn. split.
  - intros e w2. repeat split.
    + intros v Hv Tv. now rewrite Hv; simpl; rewrite Tv.
    + intros Hd. now rewrite Hd.
    + now apply or_default_truthy.
  - intros [d|e] w2; split; reflexivity.
Qed.

Lemma sendMessage_failure_and_cleanup_witness :
  let p := sendMessage (app world_with_session) "eggs" world_with_session in
  let w3 := snd (resume (Rejected network_down) (fst p) (snd p)) in
  messages (app w3) = messages (app (snd p))
  /\ error (app w3) = Some (JStr GENERIC_FAILURE)
  /\ isLoading (app w3) = false.
Proof.
  destruct (sendMessage_failure_and_cleanup (app world_with_session) "eggs"
              world_with_session eq_refl eq_refl) as [F C].
  destruct (F network_down
              (snd (sendMessage (app world_with_session) "eggs"
                      world_with_session)))
    as (Hm & He & _).
  split; [exact Hm | split; [exact He | apply C]].
Defined.

(** C10. A send that fails, run from the current render: the user message
    appended before the request is still the last message in memory and it
    is the only one added; the local storage and the session list are
    what they were before the send, since only the success branch writes
    them. So if the cache held the in-memory sequence for a session before
    the send, it still holds that sequence afterwards, and the sequence in
    memory is that one followed by exactly the user message. *)
Theorem sendMessage_failure_leaves_cache
  (ingredients : string) (e : Failure) (w : World) :
  truthy_string (trim ingredients) = true ->
  truthy_id (currentSessionId (app w)) = true ->
  let wf := snd (run_with [Rejected e] (sendMessage (app w) ingredients) w) in
  messages (app wf) = messages (app w) ++ [user_message_at w ingredients]
  /\ localStorage wf = localStorage w
  /\ sessions (app wf) = sessions (app w)
  /\ (forall sid ms,
        cached_messages sid w = Some ms ->
        messages (app w) = ms ->
        cached_messages sid wf = Some ms
        /\ messages (app wf) = ms ++ [user_message_at w ingredients]).
Proof.
  intros H1 H2 wf.
  assert (Hm : messages (app wf)
               = messages (app w) ++ [user_message_at w ingredients]).
  { subst wf. pass_guards H1 H2. reflexivity. }
  assert (Hs : localStorage wf = localStorage w).
  { subst wf. pass_guards H1 H2. reflexivity. }
  split; [exact Hm|]. split; [exact Hs|]. split.
  - subst wf. pass_guards H1 H2. reflexivity.
  - intros sid ms Hc Hmem. split.
    + rewrite (cached_messages_storage sid w wf Hs). exact Hc.
    + rewrite Hm, Hmem. reflexivity.
Qed.

Lemma sendMessage_failure_leaves_cache_witness :
  let wf := snd (run_with [Rejected network_down]
                   (sendMessage (app world_with_session) "eggs")
                   world_with_session) in
  messages (app wf) = [user_message_at world_with_session "eggs"]
  /\ localStorage wf = localStorage world_with_session
  /\ cached_messages sample_session_id wf = Some [].
Proof.
  destruct (sendMessage_failure_leaves_cache "eggs" network_down
              world_with_session eq_refl eq_refl) as (Hm & Hs & _ & Hc).
  split; [exact Hm | split; [exact Hs|]].
  apply (Hc sample_session_id []); reflexivity.
Defined.



(** * The session manager *)

(** C5. [saveSessionName] with an editing name that is blank after
    trimming sends nothing and leaves the session list and the local
    storage as they are. With a name that is not blank it sends the update
    and, whatever the outcome of that request, sets the session list to the
    list of its render with the trimmed name on the edited session, and
    writes that list to the local storage. *)
Theorem saveSessionName_rename (r : AppState) (w : World) :
  (truthy_string (trim (editingName r)) = false ->
   fst (saveSessionName r w) = Done []
   /\ sessions (app (snd (saveSessionName r w))) = sessions (app w)
   /\ localStorage (snd (saveSessionName r w)) = localStorage w
   /\ requests (snd (saveSessionName r w)) = requests w)
  /\
  (truthy_string (trim (editingName r)) = true ->
   (exists k,
      fst (saveSessionName r w)
      = Await (PutTitle (editingSessionId r) (trim (editingName r))) k)
   /\ forall (o : Outcome) (w2 : World),
        let w3 := snd (resume o (fst (saveSessionName r w)) w2) in
        fst (resume o (fst (saveSessionName r w)) w2) = Done []
        /\ sessions (app w3) = renamed_sessions r
        /\ storage_get STORAGE_KEY (localStorage w3)
           = Some (JSON_stringify (sessions_to_json (renamed_sessions r)))
        /\ (forall s, In s (sessions r) ->
                      editingSessionId r = Some (Session.id s) ->
                      In (Session.with_name s (trim (editingName r)))
                         (sessions (app w3)))).
Proof.
  split; intros H; unfold saveSessionName; rewrite H; cbn.
  - repeat split.
  - split; [eexists; reflexivity|].
    intros o w2.
    assert (E : sessions (app (snd (resume o
                  (Await (PutTitle (editingSessionId r) (trim (editingName r)))
                     (fun out =>
                        (match out with
                         | Resolved _ => apply_rename r
                         | Rejected _ => apply_rename r
                         end ;;
                         setEditingSessionId (to None) ;;
                         setEditingName (to EmptyString) ;;
                         done)%eff)) w2))) = renamed_sessions r)
      by (destruct o; reflexivity).
    split; [destruct o; reflexivity|].
    split; [exact E|].
    split; [destruct o; cbn; apply storage_get_set|].
    intros s Hin Hid. cbn in E. cbn. rewrite E.
    unfold renamed_sessions. apply in_map_iff. exists s.
    split; [|exact Hin].
    rewrite Hid. cbn. now rewrite String.eqb_refl.
Qed.

Lemma saveSessionName_rename_witness :
  sessions (app (snd (saveSessionName (app (world_editing "   "))
                        (world_editing "   "))))
  = sessions (app (world_editing "   "))
  /\ sessions (app (snd (run_with [Rejected network_down]
                           (saveSessionName (app (world_editing " Brunch ")))
                           (world_editing " Brunch "))))
     = renamed_sessions (app (world_editing " Brunch "))
  /\ map Session.name (renamed_sessions (app (world_editing " Brunch ")))
     = ["Brunch"].
Proof.
  split.
  - exact (proj1 (proj2 (proj1 (saveSessionName_rename
                                  (app (world_editing "   "))
                                  (world_editing "   ")) eq_refl))).
  - split; [|reflexivity].
    destruct (proj2 (saveSessionName_rename (app (world_editing " Brunch "))
                       (world_editing " Brunch ")) eq_refl) as [_ H].
    exact (proj1 (proj2 (H (Rejected network_down)
                           (snd (saveSessionName (app (world_editing " Brunch "))
                                   (world_editing " Brunch ")))))).
Defined.

Lemma find_id_none (l : list Session.t) (sessionId : string) :
  ~ In sessionId (map Session.id l) ->
  find (fun s => String.eqb (Session.id s) sessionId) l = None.
Proof.
  induction l as [|s l IH]; simpl; [reflexivity|].
  intros H. destruct (String.eqb_spec (Session.id s) sessionId) as [E|_].
  - exfalso. apply H. left. exact E.
  - apply IH. intros Hin. apply H. right. exact Hin.
Qed.

Lemma find_id_some (l : list Session.t) (sessionId : string) :
  In sessionId (map Session.id l) ->
  exists s, find (fun s => String.eqb (Session.id s) sessionId) l = Some s
            /\ In s l /\ Session.id s = sessionId.
Proof.
  induction l as [|s l IH]; simpl; [contradiction|].
  intros H. destruct (String.eqb_spec (Session.id s) sessionId) as [E|N].
  - exists s. auto.
  - destruct H as [H|H]; [contradiction|].
    destruct (IH H) as (s' & F & I & E). exists s'. auto.
Qed.

Lemma loadSession_unknown_head (r : AppState) (sessionId : string) (w : World) :
  ~ In sessionId (map Session.id (sessions r)) ->
  loadSession r sessionId w = (Done [], w).
Proof.
  intros H. unfold loadSession. now rewrite (find_id_none _ _ H).
Qed.

(** C9. [loadSession] with an identifier that no session of the list in
    its render has does nothing: the call is finished and the world is the
    one it started in, so the active session, the messages, the session
    list, the local storage and the log of requests are unchanged. *)
Theorem loadSession_unknown_id (r : AppState) (sessionId : string) (w : World) :
  ~ In sessionId (map Session.id (sessions r)) ->
  loadSession r sessionId w = (Done [], w).
Proof. apply loadSession_unknown_head. Qed.

Lemma loadSession_unknown_id_witness :
  loadSession (app world_with_session) "session_0_unknown" world_with_session
  = (Done [], world_with_session).
Proof.
  apply loadSession_unknown_id.
  simpl. intros [H|[]]. discriminate H.
Defined.




Lemma filter_head_found (l : list Session.t) (sessionId : string)
  (head : Session.t) (rest : list Session.t) :
  filter (fun s => negb (String.eqb (Session.id s) sessionId)) l = head :: rest ->
  find (fun s => String.eqb (Session.id s) (Session.id head)) l = Some head
  /\ Session.id head <> sessionId.
Proof.
  induction l as [|s l IH]; simpl; [discriminate|].
  destruct (String.eqb_spec (Session.id s) sessionId) as [E|N]; simpl.
  - intros H. destruct (IH H) as [F D]. split; [|exact D].
    destruct (String.eqb_spec (Session.id s) (Session.id head)) as [E'|_];
      [congruence | exact F].
  - intros H. injection H as -> _. rewrite String.eqb_refl. auto.
Qed.

(** The fallback branch of [deleteSession] does what C4 asks: when the
    delete request fails, the session is removed from the list of the
    render, and if it was the active one, the head of what remains becomes
    active (it is not the deleted one), or nothing is active and the
    messages are cleared when nothing remains. *)
Lemma deleteSession_local_fallback
  (r : AppState) (sessionId : string) (e : Failure) (w : World) :
  currentSessionId r = Some sessionId ->
  let wf := snd (run_with [Rejected e] (deleteSession r sessionId) w) in
  let remaining :=
    filter (fun s => negb (String.eqb (Session.id s) sessionId)) (sessions r) in
  sessions (app wf) = remaining
  /\ match remaining with
     | head :: _ =>
         currentSessionId (app wf) = Some (Session.id head)
         /\ Session.id head <> sessionId
     | [] => currentSessionId (app wf) = None /\ messages (app wf) = []
     end.
Proof.
  intros Hc wf remaining. subst wf.
  unfold run_with, deleteSession, local_deletion, handle_current_session.
  rewrite Hc. cbn. rewrite String.eqb_refl.
  fold remaining.
  destruct remaining as [|head rest] eqn:E; cbn; [repeat split|].
  destruct (filter_head_found _ _ _ _ E) as [F D].
  unfold loadSession, spawn_last, bind. rewrite F. cbn. repeat split. exact D.
Qed.

(** The branch of [deleteSession] in which both requests succeed: the
    refreshed list becomes the session list; when the deleted session was
    active, the head of the refreshed list becomes active only if the list
    of the render has a session with that identifier, and otherwise the
    active session identifier is left as it was. *)
Lemma deleteSession_remote_refresh
  (r : AppState) (sessionId : string) (d : Response.t)
  (l : list Session.t) (w : World) :
  currentSessionId r = Some sessionId ->
  let wf :=
    snd (run_with [Resolved d; Resolved (Response.mk None (Some l) None)]
           (deleteSession r sessionId) w) in
  sessions (app wf) = l
  /\ match l with
     | head :: _ =>
         (In (Session.id head) (map Session.id (sessions r)) ->
          currentSessionId (app wf) = Some (Session.id head))
         /\ (~ In (Session.id head) (map Session.id (sessions r)) ->
             currentSessionId (app wf) = currentSessionId (app w))
     | [] => currentSessionId (app wf) = None /\ messages (app wf) = []
     end.
Proof.
  intros Hc wf. subst wf.
  unfold run_with, deleteSession, handle_current_session.
  rewrite Hc. cbn. rewrite String.eqb_refl.
  destruct l as [|head rest]; cbn; [repeat split|].
  unfold spawn_last, bind.
  destruct (in_dec string_dec (Session.id head) (map Session.id (sessions r)))
    as [Hin|Hout].
  - destruct (find_id_some _ _ Hin) as (s & F & _ & _).
    unfold loadSession. rewrite F. cbn.
    split; [reflexivity|]. split; [reflexivity | contradiction].
  - rewrite (loadSession_unknown_head r (Session.id head) _ Hout). cbn.
    split; [reflexivity|]. split; [contradiction | reflexivity].
Qed.

(** C4 fails on the branch in which the remote store answers. The one
    local session is active and is deleted; the delete request and the
    refresh both succeed, and the refreshed list holds a session that the
    list of the render does not have. [loadSession], which looks the head
    up in the list of its render, does nothing, so the active session
    identifier is still the one of the deleted session, which the session
    list no longer has. *)
Theorem deleteSession_remote_keeps_deleted_active :
  currentSessionId (app world_with_session) = Some sample_session_id
  /\ fst (run_with [Resolved Response.empty;
                    Resolved (Response.mk None (Some [remote_only_session]) None)]
            (deleteSession (app world_with_session) sample_session_id)
            world_with_session) = Done [Done []]
  /\ sessions (app world_after_remote_delete) = [remote_only_session]
  /\ currentSessionId (app world_after_remote_delete) = Some sample_session_id
  /\ ~ In sample_session_id
         (map Session.id (sessions (app world_after_remote_delete))).
Proof.
  repeat split. simpl. intros [H|[]]. discriminate H.
Qed.

(** * The local cache *)

(** C8. Writing a session list to the local storage and reading it back,
    as the mount effect does, gives the same session list: the same
    sessions in the same order, each with its identifier, name, creation
    time and messages, and each message with its identifier, role,
    content and timestamp. The one condition is that the JSON values held
    as message contents are values that JavaScript objects can be: no
    object with two properties of one name. *)
Theorem cache_round_trip (l : list Session.t) (w : World) :
  forallb session_wf l = true ->
  fst (load_sessions (snd (save_sessions l w))) = Some l.
Proof. apply load_after_save. Qed.

Lemma cache_round_trip_witness :
  fst (load_sessions
         (snd (save_sessions (sessions (app world_after_pancakes)) fresh_world)))
  = Some (sessions (app world_after_pancakes)).
Proof.
  apply cache_round_trip. reflexivity.
Defined.

(** * Further properties of the handlers *)

(** ** Identifiers *)

Lemma string_of_Z_injective (a b : Z) : string_of_Z a = string_of_Z b -> a = b.
Proof.
  intros E.
  pose proof (parse_number_string_of_Z a EmptyString delimited_end) as Pa.
  pose proof (parse_number_string_of_Z b EmptyString delimited_end) as Pb.
  rewrite E, Pb in Pa. now injection Pa.
Qed.

Lemma string_of_uint_no_underscore (d : uint) :
  no_underscore (NilEmpty.string_of_uint d) = true.
Proof. induction d; simpl; auto. Qed.

Lemma string_of_Z_no_underscore (z : Z) : no_underscore (string_of_Z z) = true.
Proof.
  destruct z as [|p|p].
  - reflexivity.
  - rewrite string_of_Z_pos. apply string_of_uint_no_underscore.
  - rewrite string_of_Z_neg. cbn [no_underscore].
    now rewrite string_of_uint_no_underscore.
Qed.

(** Two texts cut at their first underscore. *)
Lemma first_underscore (a b r1 r2 : string) :
  no_underscore a = true -> no_underscore b = true ->
  (a ++ String "_" r1 = b ++ String "_" r2)%string ->
  a = b /\ r1 = r2.
Proof.
  revert b. induction a as [|x a IH]; intros [|y b] Ha Hb E; simpl in *.
  - now injection E.
  - injection E as <- _. apply andb_prop in Hb as [Hb _]. discriminate Hb.
  - injection E as -> _. apply andb_prop in Ha as [Ha _]. discriminate Ha.
  - injection E as -> E.
    apply andb_prop in Ha as [_ Ha]. apply andb_prop in Hb as [_ Hb].
    destruct (IH b Ha Hb E) as [-> ->]. auto.
Qed.

(** X1. The session identifier determines the clock reading and the random
    text it was made from: two identifiers made at different milliseconds,
    or with different random texts, are different. *)
Theorem generateSessionId_injective (w1 w2 : World) :
  fst (generateSessionId w1) = fst (generateSessionId w2) ->
  epoch_ms (clock w1 (ticks w1)) = epoch_ms (clock w2 (ticks w2))
  /\ random w1 (draws w1) = random w2 (draws w2).
Proof.
  unfold generateSessionId, Date_now, read_clock, Math_random_suffix, bind, ret.
  cbn. intros E. injection E as E.
  apply first_underscore in E; try apply string_of_Z_no_underscore.
  destruct E as [E ->]. split; [|reflexivity].
  now apply string_of_Z_injective.
Qed.

Lemma generateSessionId_injective_witness :
  epoch_ms (clock fresh_world (ticks fresh_world))
  = epoch_ms (clock world_returning (ticks world_returning))
  /\ random fresh_world (draws fresh_world)
     = random world_returning (draws world_returning).
Proof.
  exact (generateSessionId_injective fresh_world world_returning eq_refl).
Defined.

Lemma append_cancel_r (a b c : string) : (a ++ c = b ++ c)%string -> a = b.
Proof.
  revert b. induction a as [|x a IH]; intros [|y b] E; simpl in *.
  - reflexivity.
  - apply (f_equal String.length) in E. simpl in E.
    rewrite length_append in E. lia.
  - apply (f_equal String.length) in E. simpl in E.
    rewrite length_append in E. lia.
  - injection E as -> E. now rewrite (IH b E).
Qed.

Lemma last_char_append (a : string) (c : ascii) (t : string) :
  last_char (a ++ String c t) = last_char (String c t).
Proof.
  induction a as [|x a IH]; [reflexivity|].
  cbn [append]. change (last_char (String x (a ++ String c t)))
    with (match last_char (a ++ String c t) with
          | None => Some x
          | Some c' => Some c'
          end).
  rewrite IH. simpl. destruct (last_char t); reflexivity.
Qed.

Lemma user_suffix_is_not_ai_suffix (a b : string) :
  (a ++ "_user")%string <> (b ++ "_ai")%string.
Proof.
  intros E. apply (f_equal last_char) in E.
  rewrite !last_char_append in E. discriminate E.
Qed.

Lemma history_ids (h : list Chat.t) (i : MsgId) :
  In i (map Message.id (flat_map messages_of_chat h)) ->
  exists c, In c h
            /\ (i = IdStr (Chat.id c ++ "_user")
                \/ i = IdStr (Chat.id c ++ "_ai")).
Proof.
  induction h as [|c h IH]; simpl; [contradiction|].
  intros [E|[E|H]].
  - exists c. auto.
  - exists c. auto.
  - destruct (IH H) as (c' & I & D). exists c'. auto.
Qed.

(** X2. The messages rebuilt from the remote history have pairwise
    different identifiers as soon as the rows of the history have: the
    suffixes keep the user message and the answer of one row apart, and
    keep the rows apart. *)
Theorem history_message_ids_distinct (history : list Chat.t) :
  NoDup (map Chat.id history) ->
  NoDup (map Message.id (flat_map messages_of_chat history)).
Proof.
  induction history as [|c h IH]; simpl; [constructor|].
  intros N. inversion N as [|? ? Hc Nh]; subst.
  assert (Fresh : forall c', In c' h -> Chat.id c' <> Chat.id c).
  { intros c' I E. apply Hc. rewrite <- E. now apply in_map. }
  constructor; [|constructor; [|now apply IH]].
  - intros [E|H].
    + injection E as E. symmetry in E. now apply user_suffix_is_not_ai_suffix in E.
    + destruct (history_ids h _ H) as (c' & I & [E|E]); injection E as E.
      * apply append_cancel_r in E. symmetry in E. now apply (Fresh c' I).
      * now apply user_suffix_is_not_ai_suffix in E.
  - intros H.
    destruct (history_ids h _ H) as (c' & I & [E|E]); injection E as E.
    + symmetry in E. now apply user_suffix_is_not_ai_suffix in E.
    + apply append_cancel_r in E. symmetry in E. now apply (Fresh c' I).
Qed.

Lemma history_message_ids_distinct_witness :
  NoDup (map Message.id
           (flat_map messages_of_chat
              [Chat.mk "7f3a" "eggs" (JArr [pancakes]) "2023-11-14T22:13:20.000Z";
               Chat.mk "9c1e" "rice" (JArr []) "2023-11-14T22:15:00.000Z"])).
Proof.
  apply history_message_ids_distinct. simpl.
  constructor; [intros [H|[]]; discriminate H|].
  constructor; [intros []|constructor].
Defined.

Lemma find_with_messages_for (sessionId : string) (ms : list Message.t)
  (l : list Session.t) :
  find (fun s => String.eqb (Session.id s) sessionId)
       (with_messages_for sessionId ms l)
  = option_map (fun s => Session.with_messages s ms)
      (find (fun s => String.eqb (Session.id s) sessionId) l).
Proof.
  induction l as [|s l IH]; simpl; [reflexivity|].
  destruct (String.eqb (Session.id s) sessionId) eqn:E; simpl; rewrite E;
    [reflexivity | exact IH].
Qed.

Lemma with_messages_for_ids (sessionId : string) (ms : list Message.t)
  (l : list Session.t) :
  map Session.id (with_messages_for sessionId ms l) = map Session.id l
  /\ map Session.name (with_messages_for sessionId ms l) = map Session.name l.
Proof.
  unfold with_messages_for. rewrite !map_map. split; apply map_ext;
    intros s; destruct (String.eqb (Session.id s) sessionId); reflexivity.
Qed.

(** X3. [loadSession] for a session of the list, when the remote store
    returns a history that is not empty: the session becomes active; the
    message sequence is rebuilt from the history alone, two messages per
    row, the text of the user then the recipes, in the order of the rows;
    the entry of the session in the list now holds exactly the messages
    shown; and the list is written to the local storage. *)
Theorem loadSession_history
  (r : AppState) (sessionId : string) (data : Response.t)
  (chat : Chat.t) (history : list Chat.t) (w : World) :
  In sessionId (map Session.id (sessions r)) ->
  Response.history data = Some (chat :: history) ->
  let wf := snd (run_with [Resolved data] (loadSession r sessionId) w) in
  currentSessionId (app wf) = Some sessionId
  /\ messages (app wf) = flat_map messages_of_chat (chat :: history)
  /\ length (messages (app wf)) = 2 * length (chat :: history)
  /\ map Message.content (messages (app wf))
     = flat_map (fun c => [JStr (Chat.ingredients c); Chat.recipes c])
         (chat :: history)
  /\ sessions (app wf)
     = with_messages_for sessionId (messages (app wf)) (sessions r)
  /\ (exists s,
        find (fun s => String.eqb (Session.id s) sessionId) (sessions (app wf))
        = Some s
        /\ Session.messages s = Some (messages (app wf)))
  /\ storage_get STORAGE_KEY (localStorage wf)
     = Some (JSON_stringify (sessions_to_json (sessions (app wf)))).
Proof.
  intros Hin Hh wf.
  destruct (find_id_some _ _ Hin) as (session & F & _ & _).
  assert (Hm : messages (app wf) = flat_map messages_of_chat (chat :: history)).
  { subst wf. unfold run_with, loadSession. rewrite F. cbn. rewrite Hh.
    reflexivity. }
  assert (Hs : sessions (app wf)
               = with_messages_for sessionId (messages (app wf)) (sessions r)).
  { rewrite Hm. subst wf. unfold run_with, loadSession. rewrite F. cbn.
    rewrite Hh. reflexivity. }
  split.
  { subst wf. unfold run_with, loadSession. rewrite F. cbn. rewrite Hh.
    reflexivity. }
  split; [exact Hm|]. split.
  { rewrite Hm. generalize (chat :: history). intros l.
    induction l as [|c l IH]; simpl in *; [reflexivity | lia]. }
  split.
  { rewrite Hm. generalize (chat :: history). intros l.
    induction l as [|c l IH]; simpl in *; [reflexivity | now rewrite IH]. }
  split; [exact Hs|]. split.
  { rewrite Hs, find_with_messages_for, F. cbn. eexists. split; reflexivity. }
  rewrite Hs, Hm. subst wf. unfold run_with, loadSession. rewrite F. cbn.
  rewrite Hh. cbn. apply storage_get_set.
Qed.

Lemma loadSession_history_witness :
  let wf := snd (run_with [Resolved history_response]
                   (loadSession (app world_with_session) sample_session_id)
                   world_with_session) in
  length (messages (app wf)) = 4
  /\ map Session.messages (sessions (app wf)) = [Some (messages (app wf))].
Proof.
  destruct (loadSession_history (app world_with_session) sample_session_id
              history_response
              (Chat.mk "7f3a" "eggs, flour, milk" (JArr [pancakes])
                 "2023-11-14T22:13:20.000Z")
              [Chat.mk "9c1e" "rice" (JArr []) "2023-11-14T22:15:00.000Z"]
              world_with_session (or_introl eq_refl) eq_refl)
    as (_ & _ & Hl & _ & Hs & _).
  split; [exact Hl|].
  cbv zeta. rewrite Hs. reflexivity.
Defined.

(** ** The mount effect *)

(** X4. The mount effect when the remote store lists sessions: the list
    becomes the session list, and nothing else happens. The effect runs
    with the closure of a render whose session list is empty (the first
    one), so its call of [loadSession] for the head of the list finds no
    session: no session becomes active, no message is loaded, no history
    is requested, and the local storage is not written. *)
Theorem mount_lists_remote_sessions
  (r : AppState) (data : Response.t) (head : Session.t)
  (rest : list Session.t) (w : World) :
  sessions r = [] ->
  Response.sessions data = Some (head :: rest) ->
  let p := run_with [Resolved data] (loadSessionsFromDatabase r) w in
  fst p = Done [Done []]
  /\ sessions (app (snd p)) = head :: rest
  /\ currentSessionId (app (snd p)) = currentSessionId (app w)
  /\ messages (app (snd p)) = messages (app w)
  /\ requests (snd p) = requests w ++ [GetSessions]
  /\ localStorage (snd p) = localStorage w.
Proof.
  intros Hr Hd p. subst p.
  unfold run_with, loadSessionsFromDatabase. cbn. rewrite Hd. cbn.
  unfold spawn_last, bind, loadSession. rewrite Hr. cbn. repeat split.
Qed.

Lemma mount_lists_remote_sessions_witness :
  sessions (app world_mounted) = [earlier_session_remote]
  /\ currentSessionId (app world_mounted) = None.
Proof.
  destruct (mount_lists_remote_sessions initialState
              (Response.mk None (Some [earlier_session_remote]) None)
              earlier_session_remote [] world_returning eq_refl eq_refl)
    as (_ & Hs & Hc & _).
  split; [exact Hs | exact Hc].
Defined.

(** X5. The mount effect when the remote store answers with no session (the
    list is absent or empty): the session list is emptied, no session is
    active and the messages are cleared; the local storage is neither read
    nor written, so the cached sessions stay in it. *)
Theorem mount_remote_without_sessions
  (r : AppState) (data : Response.t) (w : World) :
  Response.sessions data = None \/ Response.sessions data = Some [] ->
  let p := run_with [Resolved data] (loadSessionsFromDatabase r) w in
  fst p = Done []
  /\ sessions (app (snd p)) = []
  /\ currentSessionId (app (snd p)) = None
  /\ messages (app (snd p)) = []
  /\ localStorage (snd p) = localStorage w.
Proof.
  intros Hd p. subst p. unfold run_with, loadSessionsFromDatabase. cbn.
  destruct Hd as [-> | ->]; repeat split.
Qed.

Lemma mount_remote_without_sessions_witness :
  let p := run_with [Resolved Response.empty]
             (loadSessionsFromDatabase initialState) world_returning in
  sessions (app (snd p)) = []
  /\ cached_messages (Session.id earlier_session) (snd p)
     = Some earlier_messages.
Proof.
  destruct (mount_remote_without_sessions initialState Response.empty
              world_returning (or_introl eq_refl)) as (_ & Hs & _ & _ & Hl).
  split; [exact Hs|].
  rewrite (cached_messages_storage _ _ _ Hl). reflexivity.
Defined.

Lemma load_sessions_pure (w : World) : snd (load_sessions w) = w.
Proof.
  unfold load_sessions, localStorage_getItem, bind. cbn.
  destruct (storage_get STORAGE_KEY (localStorage w)) as [blob|];
    [|reflexivity].
  destruct (truthy_string blob); [|reflexivity].
  destruct (JSON_parse blob); reflexivity.
Qed.

Lemma load_sessions_storage (w w' : World) :
  localStorage w' = localStorage w ->
  fst (load_sessions w') = fst (load_sessions w).
Proof.
  intros E. unfold load_sessions, localStorage_getItem, bind. cbn. rewrite E.
  destruct (storage_get STORAGE_KEY (localStorage w)) as [blob|];
    [|reflexivity].
  destruct (truthy_string blob); [|reflexivity].
  destruct (JSON_parse blob); reflexivity.
Qed.

(** The [catch] block of the mount effect, in terms of what the cache
    reads back as. *)
Lemma mount_offline_run (r : AppState) (e : Failure) (w : World) :
  run_with [Rejected e] (loadSessionsFromDatabase r) w
  = let W := mkWorld (app w) (localStorage w) (requests w ++ [GetSessions])
                     (clock w) (ticks w) (random w) (draws w) in
    match fst (load_sessions w) with
    | Some parsedSessions =>
        (setSessions (to parsedSessions) ;;
         match parsedSessions with
         | head :: _ => spawn_last (loadSession r (Session.id head))
         | [] => done
         end) W
    | None => (Done [], W)
    end.
Proof.
  unfold run_with, loadSessionsFromDatabase, await.
  cbn [settle resume]. unfold bind at 1.
  set (W := mkWorld (app w) (localStorage w) (requests w ++ [GetSessions])
                    (clock w) (ticks w) (random w) (draws w)).
  rewrite (surjective_pairing (load_sessions W)).
  rewrite load_sessions_pure, (load_sessions_storage w W eq_refl).
  cbv zeta. destruct (fst (load_sessions w)) as [parsed|]; [|reflexivity].
  destruct (bind _ _ W). reflexivity.
Qed.

(** X6. The mount effect when the remote store cannot be reached, after a
    visit that saved the session list [l]: the session list is [l] again,
    as read back from the local storage. As above, the closure is the one
    of a render with no session, so no session becomes active and no
    history is requested. *)
Theorem mount_offline_restores_cache
  (r : AppState) (l : list Session.t) (e : Failure) (w : World) :
  sessions r = [] ->
  forallb session_wf l = true ->
  let w0 := snd (save_sessions l w) in
  let p := run_with [Rejected e] (loadSessionsFromDatabase r) w0 in
  sessions (app (snd p)) = l
  /\ currentSessionId (app (snd p)) = currentSessionId (app w)
  /\ messages (app (snd p)) = messages (app w)
  /\ requests (snd p) = requests w ++ [GetSessions]
  /\ localStorage (snd p) = localStorage w0.
Proof.
  intros Hr Hwf w0 p.
  pose proof (load_after_save l w Hwf) as L. fold w0 in L.
  assert (Ha : app w0 = app w) by reflexivity.
  assert (Hq : requests w0 = requests w) by reflexivity.
  clearbody w0. rewrite <- Ha, <- Hq. clear Ha Hq.
  subst p. rewrite mount_offline_run, L.
  destruct l as [|head rest]; cbn; [repeat split|].
  unfold spawn_last, bind, loadSession. rewrite Hr. cbn. repeat split.
Qed.

Lemma mount_offline_restores_cache_witness :
  sessions (app (snd (run_with [Rejected network_down]
                        (loadSessionsFromDatabase initialState)
                        world_returning)))
  = [earlier_session].
Proof.
  exact (proj1 (mount_offline_restores_cache initialState [earlier_session]
                  network_down fresh_world eq_refl eq_refl)).
Defined.

(** ** Creating, renaming and updating sessions *)

(** X7. [createNewSession] from the current render: the new session is put
    at the head of the list, with no message and a name numbered by the
    length of the list plus one; it is the active session; the messages
    and the error are cleared; no request goes out; and the local storage
    reads back as exactly the new session list. *)
Theorem createNewSession_state_and_cache (w : World) :
  forallb session_wf (sessions (app w)) = true ->
  let wf := snd (createNewSession (app w) w) in
  exists newSession,
    sessions (app wf) = newSession :: sessions (app w)
    /\ Session.id newSession = fst (generateSessionId w)
    /\ Session.name newSession
       = ("Recipe Analysis "
          ++ string_of_N (N.of_nat (length (sessions (app w)) + 1)))%string
    /\ Session.messages newSession = Some []
    /\ currentSessionId (app wf) = Some (Session.id newSession)
    /\ messages (app wf) = []
    /\ error (app wf) = None
    /\ requests wf = requests w
    /\ fst (load_sessions wf) = Some (sessions (app wf)).
Proof.
  intros Hwf wf. eexists. split; [reflexivity|].
  repeat (split; [reflexivity|]).
  match goal with
  | |- _ = Some ?l =>
      rewrite (load_sessions_storage (snd (save_sessions l w)) wf eq_refl);
      apply load_after_save
  end.
  cbn. exact Hwf.
Qed.

Lemma createNewSession_state_and_cache_witness :
  exists newSession,
    sessions (app world_with_two_sessions)
    = newSession :: sessions (app world_with_session)
    /\ Session.name newSession = "Recipe Analysis 2"
    /\ fst (load_sessions world_with_two_sessions)
       = Some (sessions (app world_with_two_sessions)).
Proof.
  destruct (createNewSession_state_and_cache world_with_session eq_refl)
    as (s & Hs & _ & Hn & _ & _ & _ & _ & _ & Hl).
  exists s. split; [exact Hs|]. split; [exact Hn | exact Hl].
Defined.

(** X8. A rename changes names only: whatever the outcome of the update
    request, the session list afterwards has the sessions of the render in
    the same order, each with its identifier, creation time and messages,
    and every session that is not the edited one is as it was. *)
Theorem saveSessionName_changes_names_only
  (r : AppState) (o : Outcome) (w w2 : World) :
  truthy_string (trim (editingName r)) = true ->
  let w3 := snd (resume o (fst (saveSessionName r w)) w2) in
  map Session.id (sessions (app w3)) = map Session.id (sessions r)
  /\ map Session.createdAt (sessions (app w3))
     = map Session.createdAt (sessions r)
  /\ map Session.messages (sessions (app w3))
     = map Session.messages (sessions r)
  /\ (forall s, In s (sessions r) ->
                same_id (editingSessionId r) (Session.id s) = false ->
                In s (sessions (app w3))).
Proof.
  intros H w3.
  assert (E : sessions (app w3) = renamed_sessions r).
  { subst w3. unfold saveSessionName. rewrite H. destruct o; reflexivity. }
  rewrite E. unfold renamed_sessions. rewrite !map_map.
  repeat split;
    try (apply map_ext; intros s;
         destruct (same_id (editingSessionId r) (Session.id s)); reflexivity).
  intros s Hin Hs. apply in_map_iff. exists s. now rewrite Hs.
Qed.

Lemma saveSessionName_changes_names_only_witness :
  map Session.id
    (sessions (app (snd (run_with [Rejected network_down]
                           (saveSessionName (app (world_editing " Brunch ")))
                           (world_editing " Brunch ")))))
  = [sample_session_id].
Proof.
  exact (proj1 (saveSessionName_changes_names_only
                  (app (world_editing " Brunch ")) (Rejected network_down)
                  (world_editing " Brunch ")
                  (snd (saveSessionName (app (world_editing " Brunch "))
                          (world_editing " Brunch ")))
                  eq_refl)).
Defined.

(** X9. A successful send changes the messages of the active session only:
    the session list afterwards has the sessions of the render in the same
    order with their identifiers and names, and the sessions with another
    identifier are as they were. If no session of the list has the active
    identifier, the list is unchanged: the exchange is shown but it is not
    recorded in any session. *)
Theorem sendMessage_success_changes_active_only
  (ingredients : string) (data : Response.t) (w : World) :
  truthy_string (trim ingredients) = true ->
  truthy_id (currentSessionId (app w)) = true ->
  let wf := snd (run_with [Resolved data] (sendMessage (app w) ingredients) w) in
  map Session.id (sessions (app wf)) = map Session.id (sessions (app w))
  /\ map Session.name (sessions (app wf)) = map Session.name (sessions (app w))
  /\ (forall s, In s (sessions (app w)) ->
                same_id (currentSessionId (app w)) (Session.id s) = false ->
                In s (sessions (app wf)))
  /\ ((forall s, In s (sessions (app w)) ->
                 same_id (currentSessionId (app w)) (Session.id s) = false) ->
      sessions (app wf) = sessions (app w)
      /\ length (messages (app wf)) = length (messages (app w)) + 2).
Proof.
  intros H1 H2 wf.
  assert (E : exists ms,
             sessions (app wf)
             = map (fun s => if same_id (currentSessionId (app w)) (Session.id s)
                             then Session.with_messages s ms else s)
                   (sessions (app w))
             /\ length (messages (app wf)) = length (messages (app w)) + 2).
  { subst wf. pass_guards H1 H2. cbn. eexists. split; [reflexivity|].
    rewrite !length_app. simpl. lia. }
  destruct E as (ms & E & L). rewrite E. rewrite !map_map.
  split; [|split; [|split]].
  - apply map_ext. intros s.
    destruct (same_id (currentSessionId (app w)) (Session.id s)); reflexivity.
  - apply map_ext. intros s.
    destruct (same_id (currentSessionId (app w)) (Session.id s)); reflexivity.
  - intros s Hin Hs. apply in_map_iff. exists s. now rewrite Hs.
  - intros Hall. split; [|exact L].
    rewrite <- (map_id (sessions (app w))) at 2.
    apply map_ext_in. intros s Hin. now rewrite (Hall s Hin).
Qed.

Lemma sendMessage_success_changes_active_only_witness :
  map Session.id (sessions (app world_after_pancakes)) = [sample_session_id].
Proof.
  exact (proj1 (sendMessage_success_changes_active_only "eggs, flour, milk"
                  pancakes_response world_with_session eq_refl eq_refl)).
Defined.

(** ** Deleting sessions *)

Lemma settle_done (outs : list Outcome) (l : list Task) (w : World) :
  settle outs (Done l) w = (Done l, w).
Proof. induction outs as [|o outs IH]; simpl; [reflexivity | exact IH]. Qed.

(** What [loadSession] has done when its caller goes on: it has changed
    neither the session list, nor the messages, nor the local storage. *)
Lemma loadSession_start_frame (r : AppState) (sessionId : string) (w : World) :
  let w' := snd (loadSession r sessionId w) in
  sessions (app w') = sessions (app w)
  /\ messages (app w') = messages (app w)
  /\ localStorage w' = localStorage w.
Proof.
  unfold loadSession.
  destruct (find _ (sessions r)); cbn; repeat split.
Qed.

Lemma filter_removes_id (l : list Session.t) (sessionId : string) :
  ~ In sessionId
      (map Session.id
         (filter (fun s => negb (String.eqb (Session.id s) sessionId)) l)).
Proof.
  intros H. apply in_map_iff in H as (s & E & I).
  apply filter_In in I as [_ N]. rewrite E, String.eqb_refl in N.
  discriminate N.
Qed.

(** X10. [deleteSession] when the delete request fails: by the time the call
    is finished the session list is the list of the render without the
    sessions of that identifier, the others in their order, so no session
    of the list has the deleted identifier; and the local storage reads
    back as exactly that list. *)
Theorem deleteSession_offline_removes
  (r : AppState) (sessionId : string) (e : Failure) (w : World) :
  forallb session_wf (sessions r) = true ->
  let wf := snd (run_with [Rejected e] (deleteSession r sessionId) w) in
  sessions (app wf)
  = filter (fun s => negb (String.eqb (Session.id s) sessionId)) (sessions r)
  /\ ~ In sessionId (map Session.id (sessions (app wf)))
  /\ fst (load_sessions wf) = Some (sessions (app wf)).
Proof.
  intros Hwf wf.
  set (remaining :=
         filter (fun s => negb (String.eqb (Session.id s) sessionId))
                (sessions r)).
  assert (E : sessions (app wf) = remaining
              /\ localStorage wf
                 = localStorage (snd (save_sessions remaining w))).
  { subst wf. unfold run_with, deleteSession, local_deletion,
      handle_current_session. cbn. fold remaining.
    destruct (same_id (currentSessionId r) sessionId); [|split; reflexivity].
    destruct remaining as [|head rest]; [split; reflexivity|].
    unfold spawn_last, bind.
    match goal with
    | |- context [loadSession r ?i ?w0] =>
        destruct (loadSession_start_frame r i w0) as (Fs & _ & Fl);
        destruct (loadSession r i w0) as [t w1]
    end.
    cbn in *. split; assumption. }
  destruct E as [Es El]. rewrite Es.
  split; [reflexivity|]. split; [apply filter_removes_id|].
  rewrite (load_sessions_storage _ wf El). apply load_after_save.
  subst remaining. clear - Hwf.
  induction (sessions r) as [|s l IH]; simpl in *; [reflexivity|].
  apply andb_prop in Hwf as [Hs Hl].
  destruct (negb (String.eqb (Session.id s) sessionId)); simpl;
    [rewrite Hs|]; now apply IH.
Qed.

Lemma deleteSession_offline_removes_witness :
  let wf := snd (run_with [Rejected network_down]
                   (deleteSession (app world_with_two_sessions)
                      second_session_id)
                   world_with_two_sessions) in
  map Session.id (sessions (app wf)) = [sample_session_id]
  /\ fst (load_sessions wf) = Some (sessions (app wf)).
Proof.
  destruct (deleteSession_offline_removes (app world_with_two_sessions)
              second_session_id network_down world_with_two_sessions eq_refl)
    as (Hs & _ & Hl).
  split; [|exact Hl].
  cbv zeta. rewrite Hs. reflexivity.
Defined.

(** X11. Deleting a session that is not the active one leaves the active
    session, the messages and the error alone, whatever the outcomes of
    the requests, and requests no history. *)
Theorem deleteSession_other_keeps_active
  (r : AppState) (sessionId : string) (outs : list Outcome) (w : World) :
  same_id (currentSessionId r) sessionId = false ->
  let wf := snd (run_with outs (deleteSession r sessionId) w) in
  currentSessionId (app wf) = currentSessionId (app w)
  /\ messages (app wf) = messages (app w)
  /\ error (app wf) = error (app w)
  /\ (forall h, In (GetHistory h) (requests wf) -> In (GetHistory h) (requests w)).
Proof.
  intros H wf. subst wf.
  unfold run_with, deleteSession, local_deletion, handle_current_session.
  rewrite H. cbn.
  assert (Hreq : forall (q : list Request) (x : Request) h,
             x <> GetHistory h -> In (GetHistory h) (q ++ [x]) ->
             In (GetHistory h) q).
  { intros q x h N I. apply in_app_or in I as [I|[I|[]]]; [exact I|].
    now contradiction N. }
  destruct outs as [|[d|e] outs]; cbn.
  - repeat split. intros h I. now apply (Hreq _ (DeleteSession sessionId) h).
  - destruct outs as [|[d'|e'] outs]; cbn; rewrite ?settle_done; cbn;
      repeat split; intros h I;
      apply (Hreq _ (DeleteSession sessionId) h); try discriminate;
      try exact I;
      apply (Hreq _ GetSessions h); try discriminate; exact I.
  - rewrite settle_done. cbn. repeat split.
    intros h I. now apply (Hreq _ (DeleteSession sessionId) h).
Qed.

Lemma deleteSession_other_keeps_active_witness :
  currentSessionId
    (app (snd (run_with [Resolved Response.empty; Rejected network_down]
                 (deleteSession (app world_with_two_sessions) sample_session_id)
                 world_with_two_sessions)))
  = Some second_session_id.
Proof.
  exact (proj1 (deleteSession_other_keeps_active (app world_with_two_sessions)
                  sample_session_id
                  [Resolved Response.empty; Rejected network_down]
                  world_with_two_sessions eq_refl)).
Defined.

(** X12. A deleted session comes back. The active session is deleted while
    the remote store is down and another session remains: when the call is
    finished the deleted session is out of the list. The call has started
    [loadSession] for the head of what remains; when that history arrives
    and is not empty, [loadSession] writes the session list of its render,
    the one from before the deletion, to the state and to the local
    storage, so the deleted session is in both again. *)
Theorem deleted_session_comes_back
  (r : AppState) (sessionId : string) (e : Failure) (data : Response.t)
  (chat : Chat.t) (history : list Chat.t)
  (head : Session.t) (rest : list Session.t) (w : World) :
  currentSessionId r = Some sessionId ->
  In sessionId (map Session.id (sessions r)) ->
  filter (fun s => negb (String.eqb (Session.id s) sessionId)) (sessions r)
  = head :: rest ->
  Response.history data = Some (chat :: history) ->
  let p := run_with [Rejected e] (deleteSession r sessionId) w in
  let wf := snd (settle_spawned [Resolved data] p) in
  ~ In sessionId (map Session.id (sessions (app (snd p))))
  /\ currentSessionId (app wf) = Some (Session.id head)
  /\ map Session.id (sessions (app wf)) = map Session.id (sessions r)
  /\ In sessionId (map Session.id (sessions (app wf)))
  /\ storage_get STORAGE_KEY (localStorage wf)
     = Some (JSON_stringify (sessions_to_json (sessions (app wf)))).
Proof.
  intros Hc Hin Hf Hh p wf.
  destruct (filter_head_found _ _ _ _ Hf) as [F _].
  assert (Es : sessions (app wf)
               = with_messages_for (Session.id head)
                   (flat_map messages_of_chat (chat :: history)) (sessions r)
               /\ currentSessionId (app wf) = Some (Session.id head)
               /\ storage_get STORAGE_KEY (localStorage wf)
                  = Some (JSON_stringify (sessions_to_json
                       (with_messages_for (Session.id head)
                          (flat_map messages_of_chat (chat :: history))
                          (sessions r))))
               /\ sessions (app (snd p)) = head :: rest).
  { subst wf p.
    unfold settle_spawned, run_with, deleteSession, local_deletion,
      handle_current_session.
    rewrite Hc. cbn. rewrite String.eqb_refl, Hf.
    unfold spawn_last, bind, loadSession. rewrite F. cbn. rewrite Hh. cbn.
    repeat split. apply storage_get_set. }
  destruct Es as (Es & Ec & El & Ep).
  split.
  { rewrite Ep, <- Hf. apply filter_removes_id. }
  split; [exact Ec|].
  assert (Ei : map Session.id (sessions (app wf)) = map Session.id (sessions r))
    by (rewrite Es; apply with_messages_for_ids).
  split; [exact Ei|]. split; [now rewrite Ei|].
  now rewrite Es.
Qed.

Lemma deleted_session_comes_back_witness :
  let p := run_with [Rejected network_down]
             (deleteSession (app world_with_two_sessions) second_session_id)
             world_with_two_sessions in
  map Session.id (sessions (app (snd p))) = [sample_session_id]
  /\ map Session.id
       (sessions (app (snd (settle_spawned [Resolved history_response] p))))
     = [second_session_id; sample_session_id].
Proof.
  destruct (deleted_session_comes_back (app world_with_two_sessions)
              second_session_id network_down history_response
              (Chat.mk "7f3a" "eggs, flour, milk" (JArr [pancakes])
                 "2023-11-14T22:13:20.000Z")
              [Chat.mk "9c1e" "rice" (JArr []) "2023-11-14T22:15:00.000Z"]
              (Session.mk sample_session_id "Recipe Analysis 1"
                 "2023-11-14T22:13:20.000Z" (Some []))
              [] world_with_two_sessions
              eq_refl (or_introl eq_refl) eq_refl eq_refl)
    as (_ & _ & Hi & _).
  split; [reflexivity | exact Hi].
Defined.

(** ** The input box *)

Lemma trimEnd_idempotent (s : string) : trimEnd (trimEnd s) = trimEnd s.
Proof.
  induction s as [|c s IH]; [reflexivity|].
  cbn [trimEnd]. destruct (trimEnd s) as [|c' u] eqn:E.
  - destruct (is_trim_space c) eqn:Hc; [reflexivity|].
    unfold str1. cbn [trimEnd]. now rewrite Hc.
  - cbn [trimEnd] in *. now rewrite IH.
Qed.

Lemma trimStart_starts (s : string) :
  match trimStart s with
  | EmptyString => True
  | String c _ => is_trim_space c = false
  end.
Proof.
  induction s as [|c s IH]; simpl; [exact I|].
  destruct (is_trim_space c) eqn:Hc; [exact IH | exact Hc].
Qed.

Lemma trimStart_trimEnd (t : string) :
  match t with
  | EmptyString => True
  | String c _ => is_trim_space c = false
  end ->
  trimStart (trimEnd t) = trimEnd t.
Proof.
  destruct t as [|c t]; [reflexivity|]. intros Hc.
  cbn [trimEnd]. destruct (trimEnd t); [rewrite Hc|]; simpl; now rewrite Hc.
Qed.

Lemma trim_idempotent (s : string) : trim (trim s) = trim s.
Proof.
  unfold trim.
  rewrite (trimStart_trimEnd (trimStart s) (trimStart_starts s)).
  apply trimEnd_idempotent.
Qed.

(** X13. Submitting from the input box. While a send is loading, or when the
    text is blank, nothing is sent and the text stays in the box.
    Otherwise the box is emptied and [sendMessage] is called with the
    trimmed text, which passes the blank test of [sendMessage]; with a
    session active, the request for recipes and the user message carry
    the trimmed text. *)
Theorem input_submit (r : AppState) (message : string) (w : World) :
  (truthy_string (trim message) = false \/ isLoading r = true ->
   MessageInput.handleSubmit (input_props r) message w = ((None, message), w))
  /\
  (truthy_string (trim message) = true -> isLoading r = false ->
   MessageInput.handleSubmit (input_props r) message w
   = ((Some (fst (sendMessage r (trim message) w)), EmptyString),
      snd (sendMessage r (trim message) w))
   /\ (truthy_id (currentSessionId r) = true ->
       let w' := snd (sendMessage r (trim message) w) in
       requests w' = requests w ++ [PostSend (trim message) (currentSessionId r)]
       /\ messages (app w')
          = messages (app w) ++ [user_message_at w (trim message)])).
Proof.
  unfold MessageInput.handleSubmit, input_props. split.
  - intros [H|H]; destruct (truthy_id (currentSessionId r)); cbn;
      rewrite H; cbn; rewrite ?andb_false_r; reflexivity.
  - intros H1 H2. split.
    + destruct (truthy_id (currentSessionId r)); cbn; rewrite H1, H2; cbn;
        unfold bind; destruct (sendMessage r (trim message) w); reflexivity.
    + intros H3. unfold sendMessage. rewrite trim_idempotent, H1, H3. cbn.
      split; reflexivity.
Qed.

Lemma input_submit_witness :
  fst (MessageInput.handleSubmit (input_props (app world_with_session))
         "   " world_with_session) = (None, "   ")
  /\ requests (snd (sendMessage (app world_with_session) (trim " eggs ")
                      world_with_session))
     = [PostSend "eggs" (Some sample_session_id)].
Proof.
  destruct (input_submit (app world_with_session) "   " world_with_session)
    as [H _].
  destruct (input_submit (app world_with_session) " eggs " world_with_session)
    as [_ H'].
  split.
  - now rewrite (H (or_introl eq_refl)).
  - exact (proj1 (proj2 (H' eq_refl eq_refl) eq_refl)).
Defined.

(** X14. The first text typed when no session is active is dropped. With no
    active session and nothing loading, submitting a text that is not
    blank empties the box, creates a session and sends nothing: the new
    session is active with no message, and the text is neither in the box
    nor in the messages nor in a request. *)
Theorem input_submit_without_session
  (r : AppState) (message : string) (w : World) :
  truthy_string (trim message) = true ->
  isLoading r = false ->
  truthy_id (currentSessionId r) = false ->
  let res := MessageInput.handleSubmit (input_props r) message w in
  fst res = (Some (Done []), EmptyString)
  /\ snd res = snd (createNewSession r w)
  /\ messages (app (snd res)) = []
  /\ requests (snd res) = requests w
  /\ currentSessionId (app (snd res)) = Some (fst (generateSessionId w)).
Proof.
  intros H1 H2 H3 res. subst res.
  unfold MessageInput.handleSubmit, input_props. rewrite H3. cbn.
  rewrite H1, H2. cbn. unfold bind at 1, sendMessage.
  rewrite trim_idempotent, H1, H3. cbn. repeat split.
Qed.

Lemma input_submit_without_session_witness :
  let res := MessageInput.handleSubmit (input_props (app fresh_world))
               "eggs, flour, milk" fresh_world in
  fst res = (Some (Done []), EmptyString)
  /\ messages (app (snd res)) = []
  /\ requests (snd res) = [].
Proof.
  destruct (input_submit_without_session (app fresh_world) "eggs, flour, milk"
              fresh_world eq_refl eq_refl eq_refl) as (Hf & _ & Hm & Hr & _).
  split; [exact Hf | split; [exact Hm | exact Hr]].
Defined.

(** ** What the message list shows *)

(** X15. With a session active the message list never shows the loading
    indicator, whatever the loading flag: [Chat] passes the flag under a
    name that the message list does not read. With no session active the
    message list never shows the error banner: [App] does not pass it the
    error. *)
Theorem message_list_never_shows (a : AppState) :
  (truthy_id (currentSessionId a) = true ->
   shows_loading (MessageList.render (message_list_props a)) = false)
  /\
  (truthy_id (currentSessionId a) = false ->
   shown_banner (MessageList.render (message_list_props a)) = None).
Proof.
  unfold message_list_props, MessageList.render. split; intros H; rewrite H; cbn.
  - destruct (messages a); cbn; [|reflexivity].
    destruct (MessageList.shown_error (error a)); reflexivity.
  - destruct (messages a), (isLoading a); reflexivity.
Qed.

Lemma message_list_never_shows_witness :
  shows_loading
    (MessageList.render
       (message_list_props
          (app (snd (sendMessage (app world_with_session) "eggs"
                       world_with_session))))) = false
  /\ shown_banner (MessageList.render (message_list_props initialState)) = None.
Proof.
  split.
  - apply (proj1 (message_list_never_shows _)). reflexivity.
  - apply (proj2 (message_list_never_shows _)). reflexivity.
Defined.



